(** * Social-graph API: a shallow embedding of the in-memory store and its routes

    The development follows the layout of the JavaScript backend:

    - [JsObj], [JsSet], [JsArray]: the small part of the JavaScript runtime
      the routes rely on (plain objects used as string-keyed maps, [Set],
      and the array methods [some], [findIndex], [splice], [sort]);
    - [User], [Post], [Follow], [Like], [storage]: storage.js;
    - [seed]: seed.js;
    - [Users], [Posts], [Follows], [Likes], [Feed], [Suggestions]: one module
      per file of routes/;
    - [action], [handle], [reachable]: the store states the running server
      can be in;
    - [ObjectPrototype], [FollowsJs], [SuggestionsJs]: what the lookups of
      a plain object do with an id that names a member of
      [Object.prototype];
    - [UsersJs], [PostsJs]: the two creation routes with the string
      methods of the runtime left as parameters;
    - the invariants of reachable stores and the properties of the feed,
      of the suggestion ranking and of the relationship mutations.

    Conventions.  In the modules named after the route files, ids are the
    strings produced by [uuidv4()] or the fixed seed ids, and a lookup
    [storage.users[id]] is a lookup among the own properties; an id that
    names a member of [Object.prototype] is the matter of [FollowsJs] and
    [SuggestionsJs].  A request field that is absent, [null] or the empty
    string is falsy in JavaScript and is represented by the empty string.  A
    [createdAt] ISO-8601 string is represented by the millisecond timestamp
    that [new Date(createdAt)] parses it back to.  JavaScript numbers that
    hold counters are integers far below 2^53 and are represented in [Z]. *)

From Stdlib Require Import String Ascii List ZArith Lia Bool Sorted Permutation.
Import ListNotations.
Local Open Scope string_scope.
Local Open Scope Z_scope.

(** ** JavaScript runtime pieces *)

(** A plain object used as a map from string keys to values.  Property
    enumeration ([Object.keys], [Object.values], [Object.entries]) follows
    insertion order for keys that are not array indices, which is the case
    of every UUID and seed id; assigning to an existing key keeps its
    position.  [get] and [has] see the own properties only; the lookups
    that also see the members inherited from [Object.prototype] are in
    [ObjectPrototype] below. *)
Module JsObj.
Section Obj.
Context {V : Type}.

Definition t := list (string * V).

Definition empty : t := [].

(** [o[k]], for an own property [k] *)
Fixpoint get (k : string) (o : t) : option V :=
  match o with
  | [] => None
  | (k', v) :: o' => if String.eqb k' k then Some v else get k o'
  end.

(** [k] is an own property of [o] *)
Definition has (k : string) (o : t) : bool :=
  match get k o with Some _ => true | None => false end.

(** [o[k] = v] *)
Fixpoint set (k : string) (v : V) (o : t) : t :=
  match o with
  | [] => [(k, v)]
  | (k', v') :: o' =>
    if String.eqb k' k then (k', v) :: o' else (k', v') :: set k v o'
  end.

(** [delete o[k]] *)
Definition delete (k : string) (o : t) : t :=
  filter (fun kv => negb (String.eqb (fst kv) k)) o.

Definition keys (o : t) : list string := map fst o.
Definition values (o : t) : list V := map snd o.
Definition entries (o : t) : list (string * V) := o.
End Obj.
Arguments t : clear implicits.
End JsObj.

(** [Set] of strings: membership and insertion-ordered iteration. *)
Module JsSet.
Definition t := list string.

Definition has (x : string) (s : t) : bool := existsb (String.eqb x) s.

Definition add (x : string) (s : t) : t := if has x s then s else (s ++ [x])%list.

(** [new Set(array)] *)
Definition from (l : list string) : t := fold_left (fun s x => add x s) l [].
End JsSet.

Module JsArray.
Section Arr.
Context {A : Type}.

(** [array.some(f)] *)
Definition some (f : A -> bool) (l : list A) : bool := existsb f l.

(** [array.findIndex(f)]; [None] stands for the result [-1]. *)
Fixpoint findIndex (f : A -> bool) (l : list A) : option nat :=
  match l with
  | [] => None
  | x :: l' =>
    if f x then Some O
    else match findIndex f l' with Some i => Some (S i) | None => None end
  end.

(** [array.splice(index, 1)] *)
Fixpoint splice1 (index : nat) (l : list A) : list A :=
  match l, index with
  | [], _ => []
  | _ :: l', O => l'
  | x :: l', S i => x :: splice1 i l'
  end.

(** [array.sort(cmp)].  The sort of the language is stable, and for a
    consistent comparator the stable sorted arrangement of an array is
    unique; it is computed here by insertion from the right. *)
Fixpoint insert (cmp : A -> A -> Z) (x : A) (l : list A) : list A :=
  match l with
  | [] => [x]
  | y :: l' => if cmp x y <=? 0 then x :: y :: l' else y :: insert cmp x l'
  end.

Fixpoint sort (cmp : A -> A -> Z) (l : list A) : list A :=
  match l with
  | [] => []
  | x :: l' => insert cmp x (sort cmp l')
  end.
End Arr.
End JsArray.

(** [s.trim()] and [s.toLowerCase()], on the ASCII part of the string: the
    blanks are the space and the characters 9 to 13, the letters that have
    a lower case are A to Z.  ([UsersJs] and [PostsJs] take the two methods
    as parameters instead.) *)
Module JsString.
Definition is_space (c : ascii) : bool :=
  let n := nat_of_ascii c in
  (Nat.eqb n 32 || (Nat.leb 9 n && Nat.leb n 13))%bool.

Fixpoint trimStart (s : string) : string :=
  match s with
  | String c s' => if is_space c then trimStart s' else s
  | EmptyString => EmptyString
  end.

Fixpoint trimEnd (s : string) : string :=
  match s with
  | String c s' =>
      match trimEnd s' with
      | EmptyString => if is_space c then EmptyString else String c EmptyString
      | r => String c r
      end
  | EmptyString => EmptyString
  end.

Definition trim (s : string) : string := trimEnd (trimStart s).

Definition lower (c : ascii) : ascii :=
  let n := nat_of_ascii c in
  if (Nat.leb 65 n && Nat.leb n 90)%bool then ascii_of_nat (n + 32) else c.

Fixpoint toLowerCase (s : string) : string :=
  match s with
  | String c s' => String (lower c) (toLowerCase s')
  | EmptyString => EmptyString
  end.

(** A double quote, for messages that contain one. *)
Definition dq : string := String (ascii_of_nat 34) EmptyString.
End JsString.

(** The members every plain object inherits from [Object.prototype].  On an
    object without an own property [k], [o[k]] is the inherited member when
    [k] is one of these names and [undefined] otherwise. *)
Module ObjectPrototype.
Definition names : list string :=
  [ "constructor"; "__defineGetter__"; "__defineSetter__"; "hasOwnProperty";
    "__lookupGetter__"; "__lookupSetter__"; "isPrototypeOf";
    "propertyIsEnumerable"; "toString"; "valueOf"; "__proto__";
    "toLocaleString" ].

Definition inherits (k : string) : bool := existsb (String.eqb k) names.

(** The string an inherited member becomes under [+]: the source text of a
    built-in function, and [[object Object]] for the prototype object that
    [__proto__] returns. *)
Definition text (k : string) : string :=
  if String.eqb k "__proto__" then "[object Object]"
  else if String.eqb k "constructor" then "function Object() { [native code] }"
  else "function " ++ k ++ "() { [native code] }".

(** [k in o] *)
Definition in_ {V} (k : string) (o : JsObj.t V) : bool :=
  JsObj.has k o || inherits k.

(** [!!o[k]] on an object whose own values are objects: an own value and an
    inherited member are both truthy. *)
Definition truthy_at {V} (k : string) (o : JsObj.t V) : bool :=
  JsObj.has k o || inherits k.
End ObjectPrototype.

(** ** storage.js *)

Module User.
Record t := mk {
  id : string;
  username : string;
  displayName : string;
  bio : string;
  profilePicUrl : option string;
  createdAt : Z
}.
End User.

Module Post.
Record t := mk {
  id : string;
  authorId : string;
  content : string;
  mediaType : option string;
  mediaUrl : option string;
  createdAt : Z;
  likesCount : Z
}.

Definition with_likesCount (p : t) (n : Z) : t :=
  mk (id p) (authorId p) (content p) (mediaType p) (mediaUrl p) (createdAt p) n.
End Post.

Record Follow := mkFollow { followerId : string; followeeId : string }.

Record Like := mkLike { userId : string; postId : string }.

Record storage := mkStorage {
  users : JsObj.t User.t;
  posts : JsObj.t Post.t;
  follows : list Follow;
  likes : list Like
}.

(** The store as the module is loaded, and after [storage.reset()]. *)
Definition storage_init : storage := mkStorage JsObj.empty JsObj.empty [] [].

(** [storage.reset()] *)
Definition reset (s : storage) : storage := mkStorage JsObj.empty JsObj.empty [] [].

(** ** seed.js *)

Module SEED_IDS.
Definition alice := "user-alice-0001".
Definition bob := "user-bob-0002".
Definition carol := "user-carol-0003".
Definition dave := "user-dave-0004".
Definition eve := "user-eve-0005".
Definition frank := "user-frank-0006".
Definition p1 := "post-0001".
Definition p2 := "post-0002".
Definition p3 := "post-0003".
Definition p4 := "post-0004".
Definition p5 := "post-0005".
Definition p6 := "post-0006".
Definition p7 := "post-0007".
Definition p8 := "post-0008".
Definition p9 := "post-0009".
End SEED_IDS.

Section Seed.
(** [now] is the value of [new Date()] when [seed] runs. *)
Variable now : Z.

Definition minutesAgo (n : Z) : Z := now - n * 60 * 1000.

Definition seed_users : list User.t :=
  [ User.mk SEED_IDS.alice "alice" "Alice Wonderland"
      "Curiouser and curiouser! 🐇"
      (Some "https://i.pravatar.cc/150?u=alice") (minutesAgo 120);
    User.mk SEED_IDS.bob "bob" "Bob Builder"
      "Can we fix it? Yes we can! 🔨"
      (Some "https://i.pravatar.cc/150?u=bob") (minutesAgo 110);
    User.mk SEED_IDS.carol "carol" "Carol Danvers"
      "Higher, further, faster. 🚀"
      (Some "https://i.pravatar.cc/150?u=carol") (minutesAgo 100);
    User.mk SEED_IDS.dave "dave" "Dave Grohl"
      "Music is the answer 🎸"
      (Some "https://i.pravatar.cc/150?u=dave") (minutesAgo 90);
    User.mk SEED_IDS.eve "eve" "Eve Online"
      "Always watching the network 👁️"
      (Some "https://i.pravatar.cc/150?u=eve") (minutesAgo 80);
    User.mk SEED_IDS.frank "frank" "Frank Ocean"
      "Blonde vibes only 🌊"
      (Some "https://i.pravatar.cc/150?u=frank") (minutesAgo 70) ].

Definition seed_posts : list Post.t :=
  [ Post.mk SEED_IDS.p1 SEED_IDS.alice
      "Just had the best cup of coffee ☕ — good morning, world!"
      None None (minutesAgo 60) 0;
    Post.mk SEED_IDS.p2 SEED_IDS.bob
      "Finished building a bookshelf today. Proud of myself! 💪"
      None None (minutesAgo 55) 0;
    Post.mk SEED_IDS.p3 SEED_IDS.carol
      "Flying at 30,000 feet and the view is absolutely breathtaking 🌤️"
      None None (minutesAgo 50) 0;
    Post.mk SEED_IDS.p4 SEED_IDS.dave
      "Sunset jam session 🎸🌅"
      (Some "image") (Some "https://picsum.photos/seed/guitar/800/600")
      (minutesAgo 45) 0;
    Post.mk SEED_IDS.p5 SEED_IDS.eve
      "My home lab setup — new rack arrived! 🖥️"
      (Some "image") (Some "https://picsum.photos/seed/server/800/600")
      (minutesAgo 40) 0;
    Post.mk SEED_IDS.p6 SEED_IDS.frank
      "Ocean view from the studio 🌊"
      (Some "image") (Some "https://picsum.photos/seed/ocean/800/600")
      (minutesAgo 35) 0;
    Post.mk SEED_IDS.p7 SEED_IDS.alice
      ("Reading " ++ JsString.dq ++ "Alice in Wonderland" ++ JsString.dq
         ++ " for the hundredth time. Still magical ✨")
      None None (minutesAgo 30) 0;
    Post.mk SEED_IDS.p8 SEED_IDS.bob
      "Time-lapse of the bookshelf build 🎬"
      (Some "video") (Some "https://www.w3schools.com/html/mov_bbb.mp4")
      (minutesAgo 25) 0;
    Post.mk SEED_IDS.p9 SEED_IDS.carol
      "Back on the ground. Next mission: the fridge 🍕"
      None None (minutesAgo 10) 0 ].

Definition followRelationships : list Follow :=
  [ mkFollow SEED_IDS.alice SEED_IDS.bob;
    mkFollow SEED_IDS.alice SEED_IDS.carol;
    mkFollow SEED_IDS.alice SEED_IDS.dave;
    mkFollow SEED_IDS.bob SEED_IDS.alice;
    mkFollow SEED_IDS.bob SEED_IDS.carol;
    mkFollow SEED_IDS.carol SEED_IDS.dave;
    mkFollow SEED_IDS.eve SEED_IDS.alice;
    mkFollow SEED_IDS.eve SEED_IDS.frank ].

Definition likeRelationships : list Like :=
  [ mkLike SEED_IDS.bob SEED_IDS.p1;
    mkLike SEED_IDS.carol SEED_IDS.p1;
    mkLike SEED_IDS.alice SEED_IDS.p4;
    mkLike SEED_IDS.eve SEED_IDS.p4;
    mkLike SEED_IDS.dave SEED_IDS.p9 ].

(** One round of the last [forEach] of [seed]: push the like edge and
    bump the counter of the post object.  The post read by
    [storage.posts[postId]] is one of those assigned a few lines above. *)
Definition seed_like (s : storage) (l : Like) : storage :=
  let likes' := (likes s ++ [mkLike (userId l) (postId l)])%list in
  match JsObj.get (postId l) (posts s) with
  | Some p =>
      mkStorage (users s)
        (JsObj.set (postId l) (Post.with_likesCount p (Post.likesCount p + 1)) (posts s))
        (follows s) likes'
  | None => mkStorage (users s) (posts s) (follows s) likes'
  end.

(** [seed()]: the four [forEach] loops, over the store [s] it finds. *)
Definition seed (s : storage) : storage :=
  let s1 :=
    fold_left (fun s u => mkStorage (JsObj.set (User.id u) u (users s))
                                    (posts s) (follows s) (likes s))
              seed_users s in
  let s2 :=
    fold_left (fun s p => mkStorage (users s) (JsObj.set (Post.id p) p (posts s))
                                    (follows s) (likes s))
              seed_posts s1 in
  let s3 :=
    fold_left (fun s f => mkStorage (users s) (posts s) (follows s ++ [f])%list (likes s))
              followRelationships s2 in
  fold_left seed_like likeRelationships s3.
End Seed.

(** ** HTTP responses *)

(** An entry of the feed: the post with its [author] ([None] for [null]). *)
Record FeedItem := mkFeedItem { post : Post.t; author : option User.t }.

(** An entry of the suggestions: the fields of [storage.users[uid]] spread
    into a fresh object ([None] when there is no such user, in which case
    the spread contributes nothing) and the [mutualCount]. *)
Record Suggestion := mkSuggestion { suggested : option User.t; mutualCount : Z }.

Inductive payload :=
| Error (error : string)
| Message (message : string)
| MessageLikes (message : string) (likesCount : Z)
| UserJson (u : User.t)
| ProfileJson (u : User.t) (followerCount followingCount postCount : nat)
| UsersJson (l : list User.t)
| PostJson (p : Post.t)
| FollowJson (f : Follow)
| LikeJson (l : Like) (likesCount : Z)
| FeedJson (l : list FeedItem)
| SuggestionsJson (l : list Suggestion)
| NoContent.

Record response := mkResponse { status : nat; json : payload }.

Definition truthy (s : string) : bool := negb (String.eqb s "").

(** ** routes/users.js *)

Module Users.
(** POST /api/users; [uuid] is the result of [uuidv4()] and [now] the
    creation time. *)
Definition post (uuid : string) (now : Z)
    (username displayName bio profilePicUrl : string) (s : storage)
    : storage * response :=
  if negb (truthy username) || String.eqb (JsString.trim username) "" then
    (s, mkResponse 400 (Error "username is required"))
  else if negb (truthy displayName) || String.eqb (JsString.trim displayName) "" then
    (s, mkResponse 400 (Error "displayName is required"))
  else
    let nameLower := JsString.toLowerCase (JsString.trim username) in
    let exists_ :=
      JsArray.some
        (fun u => String.eqb (JsString.toLowerCase (User.username u)) nameLower)
        (JsObj.values (users s)) in
    if exists_ then (s, mkResponse 400 (Error "username already taken"))
    else
      let user :=
        User.mk uuid (JsString.trim username) (JsString.trim displayName)
          (if truthy bio then JsString.trim bio else "")
          (if truthy profilePicUrl then Some profilePicUrl else None)
          now in
      (mkStorage (JsObj.set (User.id user) user (users s))
                 (posts s) (follows s) (likes s),
       mkResponse 201 (UserJson user)).

(** GET /api/users/:id *)
Definition get_id (id : string) (s : storage) : response :=
  match JsObj.get id (users s) with
  | None => mkResponse 404 (Error "user not found")
  | Some user =>
      let followerCount :=
        length (filter (fun f => String.eqb (followeeId f) id) (follows s)) in
      let followingCount :=
        length (filter (fun f => String.eqb (followerId f) id) (follows s)) in
      let postCount :=
        length (filter (fun p => String.eqb (Post.authorId p) id)
                       (JsObj.values (posts s))) in
      mkResponse 200 (ProfileJson user followerCount followingCount postCount)
  end.

(** [array.map(id => storage.users[id]).filter(Boolean)] *)
Definition resolve (s : storage) (ids : list string) : list User.t :=
  flat_map (fun i => match JsObj.get i (users s) with
                     | Some u => [u]
                     | None => []
                     end) ids.

(** GET /api/users/:id/followers *)
Definition get_followers (id : string) (s : storage) : response :=
  if negb (JsObj.has id (users s)) then mkResponse 404 (Error "user not found")
  else
    let followers :=
      resolve s (map followerId
                     (filter (fun f => String.eqb (followeeId f) id) (follows s))) in
    mkResponse 200 (UsersJson followers).

(** GET /api/users/:id/following *)
Definition get_following (id : string) (s : storage) : response :=
  if negb (JsObj.has id (users s)) then mkResponse 404 (Error "user not found")
  else
    let following :=
      resolve s (map followeeId
                     (filter (fun f => String.eqb (followerId f) id) (follows s))) in
    mkResponse 200 (UsersJson following).

End Users.

(** ** routes/posts.js *)

Module Posts.
(** POST /api/posts; [mediaType] is [None] when the field is [undefined]
    or [null]. *)
Definition post (uuid : string) (now : Z)
    (authorId content : string) (mediaType : option string) (mediaUrl : string)
    (s : storage) : storage * response :=
  if negb (truthy authorId) || negb (JsObj.has authorId (users s)) then
    (s, mkResponse 400
          (Error "authorId is missing or does not refer to a valid user"))
  else if negb (truthy content) || String.eqb (JsString.trim content) "" then
    (s, mkResponse 400 (Error "content is required"))
  else if match mediaType with
          | Some m => negb (String.eqb m "image" || String.eqb m "video")
          | None => false
          end then
    (s, mkResponse 400
          (Error ("mediaType must be " ++ JsString.dq ++ "image" ++ JsString.dq
                    ++ ", " ++ JsString.dq ++ "video" ++ JsString.dq ++ ", or null")))
  else
    let post :=
      Post.mk uuid authorId (JsString.trim content)
        (match mediaType with
         | Some m => if truthy m then Some m else None
         | None => None
         end)
        (if truthy mediaUrl then Some mediaUrl else None)
        now 0 in
    (mkStorage (users s) (JsObj.set (Post.id post) post (posts s))
               (follows s) (likes s),
     mkResponse 201 (PostJson post)).

(** DELETE /api/posts/:id *)
Definition delete (id : string) (s : storage) : storage * response :=
  match JsObj.get id (posts s) with
  | None => (s, mkResponse 404 (Error "post not found"))
  | Some _ =>
      let likes' := filter (fun l => negb (String.eqb (postId l) id)) (likes s) in
      (mkStorage (users s) (JsObj.delete id (posts s)) (follows s) likes',
       mkResponse 204 NoContent)
  end.
End Posts.

(** ** routes/follows.js *)

Module Follows.
Definition same_edge (a b : string) (f : Follow) : bool :=
  String.eqb (followerId f) a && String.eqb (followeeId f) b.

(** POST /api/follow *)
Definition post (followerId followeeId : string) (s : storage)
    : storage * response :=
  if negb (truthy followerId) || negb (truthy followeeId) then
    (s, mkResponse 400 (Error "followerId and followeeId are required"))
  else if String.eqb followerId followeeId then
    (s, mkResponse 400 (Error "a user cannot follow themselves"))
  else if negb (JsObj.has followerId (users s)) then
    (s, mkResponse 404 (Error "follower user not found"))
  else if negb (JsObj.has followeeId (users s)) then
    (s, mkResponse 404 (Error "followee user not found"))
  else
    let alreadyFollowing :=
      JsArray.some (same_edge followerId followeeId) (follows s) in
    if alreadyFollowing then
      (s, mkResponse 400 (Error "already following this user"))
    else
      (mkStorage (users s) (posts s)
                 (follows s ++ [mkFollow followerId followeeId])%list (likes s),
       mkResponse 201 (FollowJson (mkFollow followerId followeeId))).

(** DELETE /api/follow *)
Definition delete (followerId followeeId : string) (s : storage)
    : storage * response :=
  if negb (truthy followerId) || negb (truthy followeeId) then
    (s, mkResponse 400 (Error "followerId and followeeId are required"))
  else
    match JsArray.findIndex (same_edge followerId followeeId) (follows s) with
    | None => (s, mkResponse 404 (Error "follow relationship not found"))
    | Some index =>
        (mkStorage (users s) (posts s) (JsArray.splice1 index (follows s)) (likes s),
         mkResponse 200 (Message "unfollowed successfully"))
    end.
End Follows.

(** ** routes/likes.js *)

Module Likes.
Definition same_like (u p : string) (l : Like) : bool :=
  String.eqb (userId l) u && String.eqb (postId l) p.

(** POST /api/posts/:id/like *)
Definition post (postId userId : string) (s : storage) : storage * response :=
  if negb (truthy userId) then (s, mkResponse 400 (Error "userId is required"))
  else
    match JsObj.get postId (posts s) with
    | None => (s, mkResponse 404 (Error "post not found"))
    | Some post =>
        if negb (JsObj.has userId (users s)) then
          (s, mkResponse 404 (Error "user not found"))
        else
          let alreadyLiked := JsArray.some (same_like userId postId) (likes s) in
          if alreadyLiked then
            (s, mkResponse 400 (Error "post already liked by this user"))
          else
            let post' := Post.with_likesCount post (Post.likesCount post + 1) in
            (mkStorage (users s) (JsObj.set postId post' (posts s)) (follows s)
                       (likes s ++ [mkLike userId postId])%list,
             mkResponse 201 (LikeJson (mkLike userId postId) (Post.likesCount post')))
    end.

(** DELETE /api/posts/:id/like *)
Definition delete (postId userId : string) (s : storage) : storage * response :=
  if negb (truthy userId) then (s, mkResponse 400 (Error "userId is required"))
  else
    match JsObj.get postId (posts s) with
    | None => (s, mkResponse 404 (Error "post not found"))
    | Some post =>
        match JsArray.findIndex (same_like userId postId) (likes s) with
        | None => (s, mkResponse 404 (Error "like not found"))
        | Some index =>
            let post' :=
              Post.with_likesCount post (Z.max 0 (Post.likesCount post - 1)) in
            (mkStorage (users s) (JsObj.set postId post' (posts s)) (follows s)
                       (JsArray.splice1 index (likes s)),
             mkResponse 200
               (MessageLikes "unliked successfully" (Post.likesCount post')))
        end
    end.
End Likes.

(** ** routes/feed.js *)

Module Feed.
(** GET /api/feed/:userId *)
Definition get (userId : string) (s : storage) : response :=
  if negb (JsObj.has userId (users s)) then mkResponse 404 (Error "user not found")
  else
    let followingIds :=
      JsSet.from
        (map followeeId
             (filter (fun f => String.eqb (followerId f) userId) (follows s))) in
    let feedPosts :=
      map (fun p => mkFeedItem p (JsObj.get (Post.authorId p) (users s)))
          (JsArray.sort
             (fun a b => Post.createdAt b - Post.createdAt a)
             (filter (fun p => JsSet.has (Post.authorId p) followingIds)
                     (JsObj.values (posts s)))) in
    mkResponse 200 (FeedJson feedPosts).
End Feed.

(** ** routes/suggestions.js *)

Module Suggestions.
Definition computeSuggestions (userId : string) (s : storage) : list Suggestion :=
  let alreadyFollowing :=
    JsSet.from
      (map followeeId
           (filter (fun f => String.eqb (followerId f) userId) (follows s))) in
  let mutualCounts : JsObj.t Z :=
    fold_left
      (fun mutualCounts followeeId_ =>
         fold_left
           (fun mutualCounts f =>
              let candidate := followeeId f in
              if String.eqb candidate userId || JsSet.has candidate alreadyFollowing
              then mutualCounts
              else
                JsObj.set candidate
                  (match JsObj.get candidate mutualCounts with
                   | Some n => n
                   | None => 0
                   end + 1)
                  mutualCounts)
           (filter (fun f => String.eqb (followerId f) followeeId_) (follows s))
           mutualCounts)
      alreadyFollowing JsObj.empty in
  let mutualCounts :=
    fold_left
      (fun mutualCounts uid =>
         if String.eqb uid userId || JsSet.has uid alreadyFollowing
         then mutualCounts
         else if negb (JsObj.has uid mutualCounts)
              then JsObj.set uid 0 mutualCounts
              else mutualCounts)
      (JsObj.keys (users s)) mutualCounts in
  map (fun e => mkSuggestion (JsObj.get (fst e) (users s)) (snd e))
      (JsArray.sort (fun a b => snd b - snd a) (JsObj.entries mutualCounts)).

(** GET /api/suggestions/:id *)
Definition get (id : string) (s : storage) : response :=
  if negb (JsObj.has id (users s)) then mkResponse 404 (Error "user not found")
  else mkResponse 200 (SuggestionsJson (computeSuggestions id s)).
End Suggestions.

(** ** The store states of the running server *)

(** The mutating routes, with the values drawn from [uuidv4()] and the
    clock made explicit. *)
Inductive action :=
| CreateUser (uuid : string) (now : Z) (username displayName bio profilePicUrl : string)
| CreatePost (uuid : string) (now : Z) (authorId content : string)
             (mediaType : option string) (mediaUrl : string)
| DeletePost (id : string)
| DoFollow (followerId followeeId : string)
| Unfollow (followerId followeeId : string)
| DoLike (userId postId : string)
| Unlike (userId postId : string).

Definition handle (a : action) (s : storage) : storage * response :=
  match a with
  | CreateUser uuid now username displayName bio pic =>
      Users.post uuid now username displayName bio pic s
  | CreatePost uuid now authorId content mediaType mediaUrl =>
      Posts.post uuid now authorId content mediaType mediaUrl s
  | DeletePost id => Posts.delete id s
  | DoFollow a b => Follows.post a b s
  | Unfollow a b => Follows.delete a b s
  | DoLike u p => Likes.post p u s
  | Unlike u p => Likes.delete p u s
  end.

(** [uuidv4()] returns a 36-character identifier that is not in use. *)
Definition fresh_uuid (a : action) (s : storage) : Prop :=
  match a with
  | CreateUser uuid _ _ _ _ _ =>
      String.length uuid = 36%nat /\ JsObj.has uuid (users s) = false
  | CreatePost uuid _ _ _ _ _ =>
      String.length uuid = 36%nat /\ JsObj.has uuid (posts s) = false
  | _ => True
  end.

(** The server starts from the empty store, or from the seeded store when
    it is run directly ([seed()] is called once, at startup); from there the
    store changes through the routes and [storage.reset()].  The requests
    are those of [handle]: their ids are looked up among the own properties,
    so that a request naming a member of [Object.prototype] is answered as
    for any other id that is not in the store. *)
Inductive reachable : storage -> Prop :=
| reachable_init : reachable storage_init
| reachable_seed (now : Z) : reachable (seed now storage_init)
| reachable_reset (s : storage) : reachable s -> reachable (reset s)
| reachable_step (a : action) (s : storage) :
    reachable s -> fresh_uuid a s -> reachable (fst (handle a s)).

(** ** Vocabulary of the properties *)

(** The order of an array sorted with the comparator [key b - key a]. *)
Definition descending {A} (key : A -> Z) (a b : A) : Prop := key a >= key b.

(** A follow edge [(a, b)] is in the edge list. *)
Definition edge (s : storage) (a b : string) : bool :=
  existsb (Follows.same_edge a b) (follows s).

(** The like edges that reference post [k]. *)
Definition likesOf (s : storage) (k : string) : list Like :=
  filter (fun l => String.eqb (postId l) k) (likes s).

(** The follow edges are irreflexive, pairwise distinct, and join existing
    users. *)
Record follows_ok (s : storage) : Prop := {
  follows_NoDup : NoDup (follows s);
  follows_irrefl : forall f, In f (follows s) -> followerId f <> followeeId f;
  follows_follower : forall f, In f (follows s) -> JsObj.has (followerId f) (users s) = true;
  follows_followee : forall f, In f (follows s) -> JsObj.has (followeeId f) (users s) = true
}.


(** The invariant of the store: both objects hold their records under
    the record's own id, ids are not empty, the follow edges are well formed,
    every like edge references a post of the store and every counter agrees
    with the like edges. *)
Record store_ok (s : storage) : Prop := {
  ok_users_NoDup : NoDup (JsObj.keys (users s));
  ok_users_id : forall k u, JsObj.get k (users s) = Some u -> User.id u = k;
  ok_users_truthy : forall k, JsObj.has k (users s) = true -> k <> "";
  ok_posts_NoDup : NoDup (JsObj.keys (posts s));
  ok_posts_id : forall k p, JsObj.get k (posts s) = Some p -> Post.id p = k;
  ok_follows : follows_ok s;
  ok_follows_truthy : forall f, In f (follows s) -> followerId f <> "" /\ followeeId f <> "";
  ok_likes_post : forall l, In l (likes s) -> JsObj.has (postId l) (posts s) = true;
  ok_likes_count : forall k p, JsObj.get k (posts s) = Some p ->
                               Post.likesCount p = Z.of_nat (length (likesOf s k))
}.

(** No two elements of the list are equal (for the test [eq]). *)
Fixpoint distinct {A} (eq : A -> A -> bool) (l : list A) : bool :=
  match l with
  | [] => true
  | x :: l' => negb (existsb (eq x) l') && distinct eq l'
  end.

(** A boolean check of [store_ok], used on the seeded store. *)
Definition store_okb (s : storage) : bool :=
  distinct String.eqb (JsObj.keys (users s))
  && forallb (fun e => String.eqb (User.id (snd e)) (fst e) && truthy (fst e)) (users s)
  && distinct String.eqb (JsObj.keys (posts s))
  && forallb (fun e => String.eqb (Post.id (snd e)) (fst e)
                       && (Post.likesCount (snd e)
                           =? Z.of_nat (length (likesOf s (fst e))))) (posts s)
  && distinct (fun f g => Follows.same_edge (followerId f) (followeeId f) g) (follows s)
  && forallb (fun f => negb (String.eqb (followerId f) (followeeId f))
                       && JsObj.has (followerId f) (users s)
                       && JsObj.has (followeeId f) (users s)
                       && truthy (followerId f) && truthy (followeeId f)) (follows s)
  && forallb (fun l => JsObj.has (postId l) (posts s)) (likes s).

(** The three conditions on the follow edges: no edge from a user to
    themselves, at most one edge per ordered pair, and both ends are the ids
    of user records of the store. *)
Definition follow_edges_wellformed (s : storage) : Prop :=
  (forall f, In f (follows s) -> followerId f <> followeeId f)
  /\ (forall a b, (length (filter (Follows.same_edge a b) (follows s)) <= 1)%nat)
  /\ (forall f, In f (follows s) ->
        (exists u, JsObj.get (followerId f) (users s) = Some u)
        /\ (exists u, JsObj.get (followeeId f) (users s) = Some u)).

(** A run of requests, one after the other. *)
Fixpoint run (acts : list action) (s : storage) : storage :=
  match acts with
  | [] => s
  | a :: acts' => run acts' (fst (handle a s))
  end.


(** The ids that [u] follows, as the routes compute them. *)
Definition followeesOf (s : storage) (u : string) : list string :=
  map followeeId (filter (fun f => String.eqb (followerId f) u) (follows s)).

(** One increment of the tally: [mutualCounts[c] = (mutualCounts[c] || 0) + 1]. *)
Definition bump (mc : JsObj.t Z) (c : string) : JsObj.t Z :=
  JsObj.set c (match JsObj.get c mc with Some n => n | None => 0 end + 1) mc.

(** One round of the loop that adds the users without a mutual connection. *)
Definition fill_step (excluded : string -> bool) (mc : JsObj.t Z) (uid : string)
    : JsObj.t Z :=
  if excluded uid then mc
  else if negb (JsObj.has uid mc) then JsObj.set uid 0 mc else mc.

(** The number of occurrences of [c] in a list of ids. *)
Definition occ (c : string) (l : list string) : nat :=
  length (filter (String.eqb c) l).

(** The test that skips a candidate: [u] themselves or a user [u] follows. *)
Definition excluded (s : storage) (u : string) (c : string) : bool :=
  String.eqb c u || JsSet.has c (JsSet.from (followeesOf s u)).

(** The tally object at the end of the loops of [computeSuggestions], with
    the nested loops flattened into one sequence of increments. *)
Definition mutualCounts (s : storage) (u : string) : JsObj.t Z :=
  fold_left (fill_step (excluded s u)) (JsObj.keys (users s))
    (fold_left bump
       (flat_map (fun fid => filter (fun c => negb (excluded s u c)) (followeesOf s fid))
                 (JsSet.from (followeesOf s u)))
       JsObj.empty).

(** The number of followees of [u] that follow [c]: the number of follow
    paths of length two from [u] to [c]. *)
Definition paths2 (s : storage) (u c : string) : nat :=
  length (filter (fun f => edge s f c) (followeesOf s u)).

(** The id of the user an entry stands for. *)
Definition suggested_id (x : Suggestion) : option string :=
  option_map User.id (suggested x).

(** The scenario with three users: A follows B and B follows C. *)
Module Scenario.
Definition A := "00000000-0000-4000-8000-00000000000a".
Definition B := "00000000-0000-4000-8000-00000000000b".
Definition C := "00000000-0000-4000-8000-00000000000c".

Definition requests : list action :=
  [ CreateUser A 1 "a" "User A" "" "";
    CreateUser B 2 "b" "User B" "" "";
    CreateUser C 3 "c" "User C" "" "";
    DoFollow A B;
    DoFollow B C ].

Definition store : storage := run requests storage_init.
End Scenario.

(** Along a run, every id drawn from [uuidv4()] is fresh. *)
Fixpoint run_fresh (acts : list action) (s : storage) : Prop :=
  match acts with
  | [] => True
  | a :: acts' => fresh_uuid a s /\ run_fresh acts' (fst (handle a s))
  end.

(** ** The read routes outside the suggestion and feed logic *)

(** The answer of a read route: a status with a body, or with an error
    message. *)
Inductive reply (A : Type) : Type :=
| Reply (status : nat) (body : A)
| ReplyError (status : nat) (error : string).
Arguments Reply {A} status body.
Arguments ReplyError {A} status error.

(** routes/users.js, the two list routes. *)
Module UsersList.
(** GET /api/users *)
Definition get (s : storage) : response :=
  mkResponse 200 (UsersJson (JsObj.values (users s))).

(** GET /api/users/:userId/posts *)
Definition get_posts (userId : string) (s : storage) : reply (list Post.t) :=
  match JsObj.get userId (users s) with
  | None => ReplyError 404 "user not found"
  | Some _ =>
      Reply 200
        (JsArray.sort (fun a b => Post.createdAt b - Post.createdAt a)
           (filter (fun p => String.eqb (Post.authorId p) userId)
                   (JsObj.values (posts s))))
  end.
End UsersList.

(** routes/posts.js, the read routes. *)
Module PostsRead.
(** GET /api/posts *)
Definition get (s : storage) : reply (list Post.t) :=
  Reply 200
    (JsArray.sort (fun a b => Post.createdAt b - Post.createdAt a)
                  (JsObj.values (posts s))).

(** GET /api/posts/:id; the body is the post with its [author]. *)
Definition get_id (id : string) (s : storage) : reply FeedItem :=
  match JsObj.get id (posts s) with
  | None => ReplyError 404 "post not found"
  | Some post => Reply 200 (mkFeedItem post (JsObj.get (Post.authorId post) (users s)))
  end.

(** GET /api/posts/:id/likes *)
Definition get_likes (id : string) (s : storage) : response :=
  match JsObj.get id (posts s) with
  | None => mkResponse 404 (Error "post not found")
  | Some _ =>
      let likers :=
        Users.resolve s
          (map userId (filter (fun l => String.eqb (postId l) id) (likes s))) in
      mkResponse 200 (UsersJson likers)
  end.
End PostsRead.

(** routes/likes.js, GET on the like router. *)
Module LikesRead.
Definition get (postId_ : string) (s : storage) : response :=
  if negb (JsObj.has postId_ (posts s)) then mkResponse 404 (Error "post not found")
  else
    let likers :=
      Users.resolve s
        (map userId (filter (fun l => String.eqb (postId l) postId_) (likes s))) in
    mkResponse 200 (UsersJson likers).
End LikesRead.



(** ** Ids that name a member of [Object.prototype] *)

(** routes/follows.js, POST /api/follow, with [storage.users[id]] as the
    lookup of a plain object: an own record or an inherited member. *)
Module FollowsJs.
Definition post (followerId followeeId : string) (s : storage)
    : storage * response :=
  if negb (truthy followerId) || negb (truthy followeeId) then
    (s, mkResponse 400 (Error "followerId and followeeId are required"))
  else if String.eqb followerId followeeId then
    (s, mkResponse 400 (Error "a user cannot follow themselves"))
  else if negb (ObjectPrototype.truthy_at followerId (users s)) then
    (s, mkResponse 404 (Error "follower user not found"))
  else if negb (ObjectPrototype.truthy_at followeeId (users s)) then
    (s, mkResponse 404 (Error "followee user not found"))
  else
    let alreadyFollowing :=
      JsArray.some (Follows.same_edge followerId followeeId) (follows s) in
    if alreadyFollowing then
      (s, mkResponse 400 (Error "already following this user"))
    else
      (mkStorage (users s) (posts s)
                 (follows s ++ [mkFollow followerId followeeId])%list (likes s),
       mkResponse 201 (FollowJson (mkFollow followerId followeeId))).
End FollowsJs.

(** A value of the tally object of the suggestions: a number, or the string
    that [+ 1] makes of an inherited member. *)
Inductive count :=
| Num (n : Z)
| Str (t : string).

(** routes/suggestions.js, [computeSuggestions], with [mutualCounts] as a
    plain object.  An entry of the answer is the pair of the own fields of
    [storage.users[uid]] ([None] when [uid] is no own property: an inherited
    member has no field to spread) and of the [mutualCount]. *)
Module SuggestionsJs.
(** [mutualCounts[candidate] = (mutualCounts[candidate] || 0) + 1].
    Without an own property, [mutualCounts[candidate]] is the inherited
    member when there is one, and [+ 1] appends to its text; the
    assignment to [__proto__] goes to the setter, which ignores a string. *)
Definition increment (candidate : string) (mutualCounts : JsObj.t count)
    : JsObj.t count :=
  match JsObj.get candidate mutualCounts with
  | Some (Num n) =>
      JsObj.set candidate (Num ((if n =? 0 then 0 else n) + 1)) mutualCounts
  | Some (Str t) =>
      JsObj.set candidate (if truthy t then Str (t ++ "1") else Num 1) mutualCounts
  | None =>
      if ObjectPrototype.inherits candidate then
        if String.eqb candidate "__proto__" then mutualCounts
        else JsObj.set candidate (Str (ObjectPrototype.text candidate ++ "1"))
                       mutualCounts
      else JsObj.set candidate (Num 1) mutualCounts
  end.

(** The comparator [(a, b) => b[1] - a[1]]: the difference is [NaN] when
    one of the two is such a string, and [sort] takes [NaN] for 0.  With a
    string among the values the comparator is not consistent and the order
    of the sorted array is left to the engine; the properties below use the
    members of the answer only. *)
Definition compare (a b : string * count) : Z :=
  match snd b, snd a with
  | Num y, Num x => y - x
  | _, _ => 0
  end.

Definition computeSuggestions (userId : string) (s : storage)
    : list (option User.t * count) :=
  let alreadyFollowing :=
    JsSet.from
      (map followeeId
           (filter (fun f => String.eqb (followerId f) userId) (follows s))) in
  let mutualCounts : JsObj.t count :=
    fold_left
      (fun mutualCounts followeeId_ =>
         fold_left
           (fun mutualCounts f =>
              let candidate := followeeId f in
              if String.eqb candidate userId || JsSet.has candidate alreadyFollowing
              then mutualCounts
              else increment candidate mutualCounts)
           (filter (fun f => String.eqb (followerId f) followeeId_) (follows s))
           mutualCounts)
      alreadyFollowing JsObj.empty in
  let mutualCounts :=
    fold_left
      (fun mutualCounts uid =>
         if String.eqb uid userId || JsSet.has uid alreadyFollowing
         then mutualCounts
         else if negb (ObjectPrototype.in_ uid mutualCounts)
              then JsObj.set uid (Num 0) mutualCounts
              else mutualCounts)
      (JsObj.keys (users s)) mutualCounts in
  map (fun e => (JsObj.get (fst e) (users s), snd e))
      (JsArray.sort compare (JsObj.entries mutualCounts)).
End SuggestionsJs.

(** The tally of [Suggestions.computeSuggestions] read as a tally of
    [SuggestionsJs.computeSuggestions]. *)
Definition as_counts (mc : JsObj.t Z) : JsObj.t count :=
  map (fun e => (fst e, Num (snd e))) mc.

(** No follow edge ends in, and no user is filed under, a name of
    [Object.prototype]. *)
Definition plain_ids (s : storage) : Prop :=
  (forall f, In f (follows s) -> ObjectPrototype.inherits (followeeId f) = false)
  /\ (forall k, In k (JsObj.keys (users s)) -> ObjectPrototype.inherits k = false).

(** One round of the loop of [SuggestionsJs.computeSuggestions] that adds
    the users without a mutual connection. *)
Definition fill_count (excluded : string -> bool) (mc : JsObj.t count) (uid : string)
    : JsObj.t count :=
  if excluded uid then mc
  else if negb (ObjectPrototype.in_ uid mc) then JsObj.set uid (Num 0) mc else mc.

(** The tally object at the end of the loops of
    [SuggestionsJs.computeSuggestions], with the nested loops flattened into
    one sequence of increments. *)
Definition tally (s : storage) (u : string) : JsObj.t count :=
  fold_left (fill_count (excluded s u)) (JsObj.keys (users s))
    (fold_left (fun mc c => SuggestionsJs.increment c mc)
       (flat_map (fun fid => filter (fun c => negb (excluded s u c)) (followeesOf s fid))
                 (JsSet.from (followeesOf s u)))
       JsObj.empty).

(** What the suggestions need of a store: no follow edge occurs twice, and
    every user record is filed under its own id, which is neither empty nor a
    name of [Object.prototype]. *)
Definition graph_ok (s : storage) : Prop :=
  NoDup (follows s)
  /\ forall k usr, JsObj.get k (users s) = Some usr ->
                   User.id usr = k /\ k <> "" /\ ObjectPrototype.inherits k = false.

(** The two conditions on the follow edges that do not speak of the users:
    no edge from an id to itself, and no edge twice. *)
Definition edges_simple (s : storage) : Prop :=
  (forall f, In f (follows s) -> followerId f <> followeeId f)
  /\ NoDup (follows s).

(** The entry stands for the user [c]. *)
Definition stands_for (c : string) (x : option User.t * count) : bool :=
  match fst x with
  | Some usr => String.eqb (User.id usr) c
  | None => false
  end.

(** ** The creation routes over the string methods of the runtime *)

(** [String.prototype.trim] and [String.prototype.toLowerCase] belong to
    the runtime and follow the Unicode tables; the two routes below take them
    as parameters ([JsString] gives their restriction to ASCII).  The fields
    of the request body are strings, as README.md documents them for a user
    and for a post; an absent field is the empty string. *)
Module UsersJs.
Section Methods.
Variables (trim toLowerCase : string -> string).

(** POST /api/users *)
Definition post (uuid : string) (now : Z)
    (username displayName bio profilePicUrl : string) (s : storage)
    : storage * response :=
  if negb (truthy username) || String.eqb (trim username) "" then
    (s, mkResponse 400 (Error "username is required"))
  else if negb (truthy displayName) || String.eqb (trim displayName) "" then
    (s, mkResponse 400 (Error "displayName is required"))
  else
    let nameLower := toLowerCase (trim username) in
    let exists_ :=
      JsArray.some
        (fun u => String.eqb (toLowerCase (User.username u)) nameLower)
        (JsObj.values (users s)) in
    if exists_ then (s, mkResponse 400 (Error "username already taken"))
    else
      let user :=
        User.mk uuid (trim username) (trim displayName)
          (if truthy bio then trim bio else "")
          (if truthy profilePicUrl then Some profilePicUrl else None)
          now in
      (mkStorage (JsObj.set (User.id user) user (users s))
                 (posts s) (follows s) (likes s),
       mkResponse 201 (UserJson user)).

(** The states of [storage.users].  The object is assigned to in three
    places: [seed], which the server runs on the empty store, the route
    above, and [storage.reset()], which gives the empty object back; no other
    route writes to it or to a record it holds, so the other collections of
    the store are left free. *)
Inductive reachable_users : JsObj.t User.t -> Prop :=
| users_init : reachable_users JsObj.empty
| users_seed (now : Z) : reachable_users (users (seed now storage_init))
| users_post (uuid : string) (now : Z)
    (username displayName bio profilePicUrl : string) (s : storage) :
    reachable_users (users s) ->
    JsObj.has uuid (users s) = false ->
    reachable_users
      (users (fst (post uuid now username displayName bio profilePicUrl s))).

(** The user names of an object, as the uniqueness check compares them. *)
Definition lowered (o : JsObj.t User.t) : list string :=
  map (fun u => toLowerCase (User.username u)) (JsObj.values o).
End Methods.
End UsersJs.

Module PostsJs.
Section Methods.
Variable trim : string -> string.

(** POST /api/posts; [mediaType] is [None] when the field is [undefined]
    or [null]. *)
Definition post (uuid : string) (now : Z)
    (authorId content : string) (mediaType : option string) (mediaUrl : string)
    (s : storage) : storage * response :=
  if negb (truthy authorId) || negb (ObjectPrototype.truthy_at authorId (users s)) then
    (s, mkResponse 400
          (Error "authorId is missing or does not refer to a valid user"))
  else if negb (truthy content) || String.eqb (trim content) "" then
    (s, mkResponse 400 (Error "content is required"))
  else if match mediaType with
          | Some m => negb (String.eqb m "image" || String.eqb m "video")
          | None => false
          end then
    (s, mkResponse 400
          (Error ("mediaType must be " ++ JsString.dq ++ "image" ++ JsString.dq
                    ++ ", " ++ JsString.dq ++ "video" ++ JsString.dq ++ ", or null")))
  else
    let post :=
      Post.mk uuid authorId (trim content)
        (match mediaType with
         | Some m => if truthy m then Some m else None
         | None => None
         end)
        (if truthy mediaUrl then Some mediaUrl else None)
        now 0 in
    (mkStorage (users s) (JsObj.set (Post.id post) post (posts s))
               (follows s) (likes s),
     mkResponse 201 (PostJson post)).
End Methods.
End PostsJs.

(** The id is in use nowhere in the store, as for an id that [uuidv4()] has
    just drawn. *)
Definition unused_id (uuid : string) (s : storage) : Prop :=
  JsObj.has uuid (users s) = false
  /\ JsObj.has uuid (posts s) = false
  /\ (forall f, In f (follows s) -> followerId f <> uuid /\ followeeId f <> uuid)
  /\ (forall p, In p (JsObj.values (posts s)) -> Post.authorId p <> uuid)
  /\ (forall l, In l (likes s) -> userId l <> uuid /\ postId l <> uuid).

(** A boolean check of [unused_id]. *)
Definition unused_idb (uuid : string) (s : storage) : bool :=
  negb (JsObj.has uuid (users s))
  && negb (JsObj.has uuid (posts s))
  && forallb (fun f => negb (String.eqb (followerId f) uuid)
                       && negb (String.eqb (followeeId f) uuid)) (follows s)
  && forallb (fun p => negb (String.eqb (Post.authorId p) uuid)) (JsObj.values (posts s))
  && forallb (fun l => negb (String.eqb (userId l) uuid)
                       && negb (String.eqb (postId l) uuid)) (likes s).


(** * Properties *)

(** ** Facts about the runtime pieces *)

Section JsObjFacts.
Context {V : Type}.
Implicit Types (o : JsObj.t V) (k : string) (v : V).

Lemma get_In k v o : JsObj.get k o = Some v -> In (k, v) o.
Proof.
  induction o as [|[k' v'] o IH]; simpl; [discriminate|].
  destruct (String.eqb_spec k' k) as [->|Hne]; intros H.
  - injection H as ->. now left.
  - right. now apply IH.
Qed.

Lemma has_keys k o : JsObj.has k o = true <-> In k (JsObj.keys o).
Proof.
  unfold JsObj.has.
  induction o as [|[k' v'] o IH]; simpl.
  - split; [discriminate | tauto].
  - destruct (String.eqb_spec k' k) as [->|Hne].
    + split; auto.
    + rewrite IH. split; [tauto | intros [H|H]; [contradiction | exact H]].
Qed.

Lemma has_false_keys k o : JsObj.has k o = false <-> ~ In k (JsObj.keys o).
Proof.
  rewrite <- has_keys. destruct (JsObj.has k o); split; congruence.
Qed.

Lemma has_get k o : JsObj.has k o = true <-> exists v, JsObj.get k o = Some v.
Proof.
  unfold JsObj.has. destruct (JsObj.get k o) as [v|].
  - split; eauto.
  - split; [discriminate | intros [v H]; discriminate].
Qed.

Lemma In_get k v o : NoDup (JsObj.keys o) -> In (k, v) o -> JsObj.get k o = Some v.
Proof.
  induction o as [|[k' v'] o IH]; simpl; [tauto|].
  intros Hnd [H|H]; inversion_clear Hnd as [|? ? Hnotin Hnd'].
  - injection H as -> ->. now rewrite String.eqb_refl.
  - destruct (String.eqb_spec k' k) as [->|Hne]; [|now apply IH].
    exfalso. apply Hnotin. now apply (in_map fst) in H.
Qed.

Lemma get_set_same k v o : JsObj.get k (JsObj.set k v o) = Some v.
Proof.
  induction o as [|[k' v'] o IH]; simpl.
  - now rewrite String.eqb_refl.
  - destruct (String.eqb_spec k' k) as [->|Hne]; simpl.
    + now rewrite String.eqb_refl.
    + destruct (String.eqb_spec k' k); [contradiction | exact IH].
Qed.

Lemma get_set_other k k' v o :
  k <> k' -> JsObj.get k' (JsObj.set k v o) = JsObj.get k' o.
Proof.
  intros Hne.
  induction o as [|[k0 v0] o IH]; simpl.
  - destruct (String.eqb_spec k k'); [contradiction | reflexivity].
  - destruct (String.eqb_spec k0 k) as [->|Hne0]; simpl.
    + destruct (String.eqb_spec k k'); [contradiction | reflexivity].
    + now rewrite IH.
Qed.

Lemma has_set k k' v o :
  JsObj.has k' (JsObj.set k v o) = (String.eqb k k' || JsObj.has k' o)%bool.
Proof.
  unfold JsObj.has.
  destruct (String.eqb_spec k k') as [->|Hne].
  - now rewrite get_set_same.
  - now rewrite get_set_other.
Qed.

Lemma keys_set k v o :
  JsObj.keys (JsObj.set k v o)
  = if JsObj.has k o then JsObj.keys o else (JsObj.keys o ++ [k])%list.
Proof.
  unfold JsObj.has.
  induction o as [|[k' v'] o IH]; simpl; [reflexivity|].
  destruct (String.eqb_spec k' k) as [->|Hne]; simpl; [reflexivity|].
  rewrite IH. now destruct (JsObj.get k o).
Qed.

Lemma NoDup_snoc {A} (l : list A) (x : A) : NoDup l -> ~ In x l -> NoDup (l ++ [x]).
Proof.
  intros Hnd Hx. induction Hnd as [|y l Hy Hnd IH]; simpl.
  - repeat constructor. tauto.
  - constructor.
    + rewrite in_app_iff. simpl. intros [H|[H|[]]]; [tauto|].
      apply Hx. subst. now left.
    + apply IH. intros H. apply Hx. now right.
Qed.

Lemma NoDup_keys_set k v o : NoDup (JsObj.keys o) -> NoDup (JsObj.keys (JsObj.set k v o)).
Proof.
  intros Hnd. rewrite keys_set.
  destruct (JsObj.has k o) eqn:Hk; [exact Hnd|].
  apply NoDup_snoc; [exact Hnd | now apply has_false_keys].
Qed.



Lemma get_delete k k' o :
  JsObj.get k' (JsObj.delete k o) = if String.eqb k k' then None else JsObj.get k' o.
Proof.
  unfold JsObj.delete.
  induction o as [|[k0 v0] o IH]; simpl.
  - now destruct (String.eqb k k').
  - destruct (String.eqb_spec k0 k) as [->|Hne]; simpl.
    + rewrite IH. now destruct (String.eqb k k').
    + rewrite IH. destruct (String.eqb_spec k0 k') as [->|Hne'].
      * destruct (String.eqb_spec k k'); [congruence | reflexivity].
      * reflexivity.
Qed.

Lemma NoDup_keys_delete k o : NoDup (JsObj.keys o) -> NoDup (JsObj.keys (JsObj.delete k o)).
Proof.
  unfold JsObj.delete, JsObj.keys.
  induction o as [|[k0 v0] o IH]; simpl; [auto|].
  intros Hnd. inversion_clear Hnd as [|? ? Hnotin Hnd'].
  destruct (negb (String.eqb k0 k)); simpl; [|now apply IH].
  constructor; [|now apply IH].
  intros H. apply Hnotin. apply in_map_iff in H as [[k1 v1] [Hk H]].
  apply filter_In in H as [H _]. simpl in Hk. subst.
  now apply (in_map fst) in H.
Qed.

End JsObjFacts.

Section JsSetFacts.
Lemma JsSet_has_In x s : JsSet.has x s = true <-> In x s.
Proof.
  unfold JsSet.has. rewrite existsb_exists. split.
  - intros [y [Hy He]]. apply String.eqb_eq in He. now subst.
  - intros H. exists x. split; [exact H | apply String.eqb_refl].
Qed.

Lemma JsSet_has_false x s : JsSet.has x s = false <-> ~ In x s.
Proof.
  rewrite <- JsSet_has_In. destruct (JsSet.has x s); split; congruence.
Qed.

Lemma JsSet_from_acc l : forall acc,
  NoDup acc ->
  NoDup (fold_left (fun s x => JsSet.add x s) l acc)
  /\ forall x, In x (fold_left (fun s x => JsSet.add x s) l acc) <-> In x acc \/ In x l.
Proof.
  induction l as [|y l IH]; simpl; intros acc Hnd.
  - split; [exact Hnd | tauto].
  - assert (Hadd : NoDup (JsSet.add y acc)
                   /\ forall x, In x (JsSet.add y acc) <-> In x acc \/ y = x).
    { unfold JsSet.add. destruct (JsSet.has y acc) eqn:Hy.
      - apply JsSet_has_In in Hy. split; [exact Hnd|].
        intros x. split; [tauto | intros [H|<-]; assumption].
      - apply JsSet_has_false in Hy. split; [now apply NoDup_snoc|].
        intros x. rewrite in_app_iff. simpl. tauto. }
    destruct Hadd as [Hnd' Hin].
    destruct (IH _ Hnd') as [IH1 IH2]. split; [exact IH1|].
    intros x. rewrite IH2, Hin. tauto.
Qed.

Lemma JsSet_from_NoDup l : NoDup (JsSet.from l).
Proof. apply JsSet_from_acc. constructor. Qed.

Lemma JsSet_from_In l x : In x (JsSet.from l) <-> In x l.
Proof.
  unfold JsSet.from.
  destruct (JsSet_from_acc l [] (NoDup_nil _)) as [_ H]. rewrite H. simpl. tauto.
Qed.

(** On an array without duplicates, [new Set(array)] iterates in the
    order of the array. *)
Lemma JsSet_from_NoDup_id l : NoDup l -> JsSet.from l = l.
Proof.
  unfold JsSet.from.
  assert (H : forall acc, NoDup (acc ++ l) ->
              fold_left (fun s x => JsSet.add x s) l acc = (acc ++ l)%list).
  { induction l as [|y l IH]; simpl; intros acc Hnd.
    - now rewrite app_nil_r.
    - unfold JsSet.add at 2.
      destruct (JsSet.has y acc) eqn:Hy.
      + apply JsSet_has_In in Hy. apply NoDup_remove_2 in Hnd.
        exfalso. apply Hnd. rewrite in_app_iff. now left.
      + rewrite IH; rewrite <- app_assoc; simpl; [reflexivity | exact Hnd]. }
  intros Hnd. now apply (H []).
Qed.
End JsSetFacts.

Section JsArrayFacts.
Context {A : Type}.
Implicit Types (f : A -> bool) (l : list A).


(** [findIndex] followed by [splice] removes the first element that
    satisfies the test, and nothing else. *)
Lemma findIndex_splice1 f l i :
  JsArray.findIndex f l = Some i ->
  exists l1 x l2,
    l = (l1 ++ x :: l2)%list /\ f x = true /\ existsb f l1 = false
    /\ JsArray.splice1 i l = (l1 ++ l2)%list.
Proof.
  revert i. induction l as [|y l IH]; simpl; intros i; [discriminate|].
  destruct (f y) eqn:Hy.
  - intros H. injection H as <-. exists [], y, l. simpl. auto.
  - destruct (JsArray.findIndex f l) as [j|]; [|discriminate].
    intros H. injection H as <-.
    destruct (IH j eq_refl) as (l1 & x & l2 & -> & Hx & Hl1 & Hs).
    exists (y :: l1), x, l2. simpl. rewrite Hy, Hl1, Hs. auto.
Qed.

Lemma findIndex_snoc_new f l x :
  existsb f l = false -> f x = true ->
  JsArray.findIndex f (l ++ [x]) = Some (length l)
  /\ JsArray.splice1 (length l) (l ++ [x]) = l.
Proof.
  intros Hl Hx. induction l as [|y l IH]; simpl in *.
  - now rewrite Hx.
  - apply orb_false_iff in Hl as [Hy Hl]. rewrite Hy.
    destruct (IH Hl) as [-> ->]. auto.
Qed.

Section Sort.
Variable cmp : A -> A -> Z.
Variable key : A -> Z.
Hypothesis cmp_key : forall a b, cmp a b = key b - key a.

Lemma insert_Permutation x l : Permutation (x :: l) (JsArray.insert cmp x l).
Proof.
  induction l as [|y l IH]; simpl; [reflexivity|].
  destruct (cmp x y <=? 0); [reflexivity|].
  rewrite perm_swap. now constructor.
Qed.

Lemma sort_Permutation l : Permutation l (JsArray.sort cmp l).
Proof.
  induction l as [|x l IH]; simpl; [constructor|].
  rewrite <- insert_Permutation. now constructor.
Qed.

Lemma insert_HdRel a x l :
  (descending key) a x -> HdRel (descending key) a l -> HdRel (descending key) a (JsArray.insert cmp x l).
Proof.
  intros Hax Hl. destruct l as [|y l]; simpl; [now constructor|].
  destruct (cmp x y <=? 0); constructor; [exact Hax|].
  now inversion Hl.
Qed.

Lemma insert_Sorted x l : Sorted (descending key) l -> Sorted (descending key) (JsArray.insert cmp x l).
Proof.
  induction 1 as [|y l Hs IH Hhd]; simpl.
  - repeat constructor.
  - destruct (Z.leb_spec (cmp x y) 0) as [Hle|Hgt].
    + constructor; [now constructor|]. constructor.
      unfold descending. rewrite cmp_key in Hle. lia.
    + constructor; [exact IH|].
      apply insert_HdRel; [|exact Hhd].
      unfold descending. rewrite cmp_key in Hgt. lia.
Qed.

Lemma sort_Sorted l : Sorted (descending key) (JsArray.sort cmp l).
Proof.
  induction l as [|x l IH]; simpl; [constructor | now apply insert_Sorted].
Qed.
End Sort.
End JsArrayFacts.

(** ** Invariants of the reachable stores *)

Lemma same_edge_true a b f : Follows.same_edge a b f = true <-> f = mkFollow a b.
Proof.
  unfold Follows.same_edge. destruct f as [x y]; simpl.
  rewrite andb_true_iff, !String.eqb_eq. split.
  - now intros [-> ->].
  - intros H. now injection H.
Qed.

Lemma edge_In s a b : edge s a b = true <-> In (mkFollow a b) (follows s).
Proof.
  unfold edge. rewrite existsb_exists. split.
  - intros [f [Hf He]]. apply same_edge_true in He. now subst.
  - intros H. exists (mkFollow a b). split; [exact H | now apply same_edge_true].
Qed.

Lemma edge_false s a b : edge s a b = false <-> ~ In (mkFollow a b) (follows s).
Proof. rewrite <- edge_In. destruct (edge s a b); split; congruence. Qed.

Lemma same_like_true u p l : Likes.same_like u p l = true <-> l = mkLike u p.
Proof.
  unfold Likes.same_like. destruct l as [x y]; simpl.
  rewrite andb_true_iff, !String.eqb_eq. split.
  - now intros [-> ->].
  - intros H. now injection H.
Qed.

Lemma filter_none {A} (f : A -> bool) (l : list A) :
  (forall x, In x l -> f x = false) -> filter f l = [].
Proof.
  induction l as [|x l IH]; simpl; intros H; [reflexivity|].
  rewrite (H x) by now left. apply IH. intros y Hy. apply H. now right.
Qed.

Lemma store_ok_init : store_ok storage_init.
Proof.
  split; simpl; try (intros; discriminate); try (intros; contradiction);
    try constructor; simpl; try (intros; contradiction); constructor.
Qed.

Lemma store_ok_reset s : store_ok (reset s).
Proof. exact store_ok_init. Qed.

Lemma follows_ok_grow s s' :
  follows_ok s ->
  follows s' = follows s ->
  (forall k, JsObj.has k (users s) = true -> JsObj.has k (users s') = true) ->
  follows_ok s'.
Proof.
  intros [Hnd Hirr Hfr Hfe] Hf Hu. split; rewrite Hf; auto.
Qed.

Lemma Users_post_follows_ok uuid now username displayName bio pic s :
  follows_ok s -> follows_ok (fst (Users.post uuid now username displayName bio pic s)).
Proof.
  intros Hok. unfold Users.post.
  destruct (negb (truthy username) || String.eqb (JsString.trim username) "")%bool;
    [exact Hok|].
  destruct (negb (truthy displayName) || String.eqb (JsString.trim displayName) "")%bool;
    [exact Hok|].
  destruct (JsArray.some _ _); [exact Hok|].
  apply (follows_ok_grow s); [exact Hok | reflexivity |].
  simpl. intros k Hk. rewrite has_set, Hk. apply orb_true_r.
Qed.

Lemma Users_post_ok uuid now username displayName bio pic s :
  store_ok s -> String.length uuid = 36%nat ->
  store_ok (fst (Users.post uuid now username displayName bio pic s)).
Proof.
  intros Hok Hlen.
  pose proof (Users_post_follows_ok uuid now username displayName bio pic s
                (ok_follows s Hok)) as Hfol.
  revert Hfol. unfold Users.post.
  destruct (negb (truthy username) || String.eqb (JsString.trim username) "")%bool;
    [intros _; exact Hok|].
  destruct (negb (truthy displayName) || String.eqb (JsString.trim displayName) "")%bool;
    [intros _; exact Hok|].
  destruct (JsArray.some _ _); [intros _; exact Hok|].
  simpl. intros Hfol. destruct Hok. split; simpl; auto.
  - now apply NoDup_keys_set.
  - intros k u. destruct (String.eqb_spec uuid k) as [->|Hne].
    + rewrite get_set_same. intros H. now injection H as <-.
    + rewrite get_set_other by exact Hne. auto.
  - intros k. rewrite has_set. destruct (String.eqb_spec uuid k) as [<-|Hne]; simpl.
    + intros _ ->. discriminate.
    + auto.
Qed.

Lemma Posts_post_ok uuid now authorId content mediaType mediaUrl s :
  store_ok s -> JsObj.has uuid (posts s) = false ->
  store_ok (fst (Posts.post uuid now authorId content mediaType mediaUrl s)).
Proof.
  intros Hok Hfresh. unfold Posts.post.
  destruct (negb (truthy authorId) || negb (JsObj.has authorId (users s)))%bool;
    [exact Hok|].
  destruct (negb (truthy content) || String.eqb (JsString.trim content) "")%bool;
    [exact Hok|].
  match goal with |- context [if ?c then (s, _) else _] => destruct c end;
    [exact Hok|].
  simpl. destruct Hok as [Hun Hui Hut Hpn Hpi Hf Hft Hlp Hlc].
  split; simpl; auto.
  - now apply NoDup_keys_set.
  - intros k p. destruct (String.eqb_spec uuid k) as [->|Hne].
    + rewrite get_set_same. intros H. now injection H as <-.
    + rewrite get_set_other by exact Hne. auto.
  - now apply (follows_ok_grow s).
  - intros l Hl. rewrite has_set, (Hlp l Hl). apply orb_true_r.
  - intros k p. destruct (String.eqb_spec uuid k) as [->|Hne].
    + rewrite get_set_same. intros H. injection H as <-. simpl.
      unfold likesOf. simpl. rewrite filter_none; [reflexivity|].
      intros l Hl. destruct (String.eqb_spec (postId l) k) as [He|]; [|reflexivity].
      apply Hlp in Hl. congruence.
    + rewrite get_set_other by exact Hne. apply Hlc.
Qed.

Lemma filter_filter_other (k id : string) (ls : list Like) :
  k <> id ->
  filter (fun l => String.eqb (postId l) k)
         (filter (fun l => negb (String.eqb (postId l) id)) ls)
  = filter (fun l => String.eqb (postId l) k) ls.
Proof.
  intros Hne. induction ls as [|l ls IH]; simpl; [reflexivity|].
  destruct (String.eqb_spec (postId l) id) as [He|Hd]; simpl.
  - destruct (String.eqb_spec (postId l) k); [congruence | exact IH].
  - now rewrite IH.
Qed.

Lemma Posts_delete_ok id s : store_ok s -> store_ok (fst (Posts.delete id s)).
Proof.
  intros Hok. unfold Posts.delete.
  destruct (JsObj.get id (posts s)) as [p0|]; simpl; [|exact Hok].
  destruct Hok as [Hun Hui Hut Hpn Hpi Hf Hft Hlp Hlc].
  split; simpl; auto.
  - now apply NoDup_keys_delete.
  - intros k p. rewrite get_delete. destruct (String.eqb id k); [discriminate | auto].
  - now apply (follows_ok_grow s).
  - intros l Hl. apply filter_In in Hl as [Hl Hne].
    apply negb_true_iff in Hne. apply String.eqb_neq in Hne.
    apply Hlp in Hl. apply has_get in Hl as [v Hv].
    apply has_get. exists v. rewrite get_delete.
    destruct (String.eqb_spec id (postId l)); [congruence | exact Hv].
  - intros k p. rewrite get_delete.
    destruct (String.eqb_spec id k) as [|Hne]; [discriminate|].
    intros Hk. unfold likesOf. simpl.
    rewrite filter_filter_other by congruence. now apply Hlc.
Qed.

Lemma Follows_post_follows_ok a b s :
  follows_ok s -> follows_ok (fst (Follows.post a b s)).
Proof.
  intros Hok. unfold Follows.post.
  destruct (negb (truthy a) || negb (truthy b))%bool; [exact Hok|].
  destruct (String.eqb_spec a b) as [|Hab]; [exact Hok|].
  destruct (JsObj.has a (users s)) eqn:Ha; [|exact Hok].
  destruct (JsObj.has b (users s)) eqn:Hb; [|exact Hok].
  simpl. destruct (JsArray.some _ _) eqn:He; [exact Hok|].
  destruct Hok as [Hnd Hirr Hfr Hfe]. split; simpl.
  - apply NoDup_snoc; [exact Hnd|]. now apply edge_false.
  - intros f Hf. apply in_app_iff in Hf as [Hf|[<-|[]]]; auto.
  - intros f Hf. apply in_app_iff in Hf as [Hf|[<-|[]]]; auto.
  - intros f Hf. apply in_app_iff in Hf as [Hf|[<-|[]]]; auto.
Qed.

Lemma truthy_true x : truthy x = true <-> x <> "".
Proof.
  unfold truthy. rewrite negb_true_iff. apply String.eqb_neq.
Qed.

Lemma Follows_post_ok a b s : store_ok s -> store_ok (fst (Follows.post a b s)).
Proof.
  intros Hok.
  pose proof (Follows_post_follows_ok a b s (ok_follows s Hok)) as Hfol.
  revert Hfol. unfold Follows.post.
  destruct (truthy a) eqn:Hta; simpl; [|intros _; exact Hok].
  destruct (truthy b) eqn:Htb; simpl; [|intros _; exact Hok].
  destruct (String.eqb a b); [intros _; exact Hok|].
  destruct (JsObj.has a (users s)); simpl; [|intros _; exact Hok].
  destruct (JsObj.has b (users s)); simpl; [|intros _; exact Hok].
  destruct (JsArray.some _ _); [intros _; exact Hok|].
  simpl. intros Hfol.
  destruct Hok as [Hun Hui Hut Hpn Hpi Hf Hft Hlp Hlc].
  split; simpl; auto.
  intros f Hin. apply in_app_iff in Hin as [Hin|[<-|[]]]; [now apply Hft|].
  simpl. split; now apply truthy_true.
Qed.

Lemma Follows_delete_follows_ok a b s :
  follows_ok s -> follows_ok (fst (Follows.delete a b s)).
Proof.
  intros Hok. unfold Follows.delete.
  destruct (negb (truthy a) || negb (truthy b))%bool; [exact Hok|].
  destruct (JsArray.findIndex _ _) as [i|] eqn:Hi; [|exact Hok].
  apply findIndex_splice1 in Hi as (l1 & x & l2 & Hl & Hx & Hl1 & Hs).
  simpl. destruct Hok as [Hnd Hirr Hfr Hfe].
  assert (Hsub : forall f, In f (l1 ++ l2) -> In f (follows s)).
  { intros f. rewrite Hl, !in_app_iff. simpl. tauto. }
  split; simpl; rewrite Hs; auto.
  rewrite Hl in Hnd. now apply NoDup_remove_1 in Hnd.
Qed.

Lemma Follows_delete_ok a b s : store_ok s -> store_ok (fst (Follows.delete a b s)).
Proof.
  intros Hok.
  pose proof (Follows_delete_follows_ok a b s (ok_follows s Hok)) as Hfol.
  revert Hfol. unfold Follows.delete.
  destruct (negb (truthy a) || negb (truthy b))%bool; [intros _; exact Hok|].
  destruct (JsArray.findIndex _ _) as [i|] eqn:Hi; [|intros _; exact Hok].
  apply findIndex_splice1 in Hi as (l1 & x & l2 & Hl & Hx & Hl1 & Hs).
  simpl. intros Hfol.
  destruct Hok as [Hun Hui Hut Hpn Hpi Hf Hft Hlp Hlc].
  split; simpl; auto.
  intros f Hin. apply Hft. rewrite Hs in Hin. rewrite Hl.
  rewrite in_app_iff in *. simpl. tauto.
Qed.

Lemma Likes_post_ok p u s : store_ok s -> store_ok (fst (Likes.post p u s)).
Proof.
  intros Hok. unfold Likes.post.
  destruct (negb (truthy u)); [exact Hok|].
  destruct (JsObj.get p (posts s)) as [q|] eqn:Hq; [|exact Hok].
  destruct (negb (JsObj.has u (users s))); [exact Hok|].
  destruct (JsArray.some _ _); [exact Hok|].
  simpl. destruct Hok as [Hun Hui Hut Hpn Hpi Hf Hft Hlp Hlc].
  split; simpl; auto.
  - now apply NoDup_keys_set.
  - intros k r. destruct (String.eqb_spec p k) as [<-|Hne].
    + rewrite get_set_same. intros H. injection H as <-. simpl. now apply Hpi.
    + rewrite get_set_other by exact Hne. auto.
  - now apply (follows_ok_grow s).
  - intros l Hl. rewrite has_set.
    apply in_app_iff in Hl as [Hl|[<-|[]]]; simpl.
    + rewrite (Hlp l Hl). apply orb_true_r.
    + now rewrite String.eqb_refl.
  - intros k r. unfold likesOf. simpl. rewrite filter_app, length_app. simpl.
    destruct (String.eqb_spec p k) as [<-|Hne].
    + rewrite get_set_same. intros H. injection H as <-. simpl.
      rewrite (Hlc p q Hq). unfold likesOf. lia.
    + rewrite get_set_other by exact Hne. intros Hk.
      rewrite (Hlc k r Hk). unfold likesOf. simpl. lia.
Qed.

Lemma Likes_delete_ok p u s : store_ok s -> store_ok (fst (Likes.delete p u s)).
Proof.
  intros Hok. unfold Likes.delete.
  destruct (negb (truthy u)); [exact Hok|].
  destruct (JsObj.get p (posts s)) as [q|] eqn:Hq; [|exact Hok].
  destruct (JsArray.findIndex _ _) as [i|] eqn:Hi; [|exact Hok].
  apply findIndex_splice1 in Hi as (l1 & x & l2 & Hl & Hx & Hl1 & Hs).
  apply same_like_true in Hx. subst x.
  simpl. destruct Hok as [Hun Hui Hut Hpn Hpi Hf Hft Hlp Hlc].
  split; simpl; auto.
  - now apply NoDup_keys_set.
  - intros k r. destruct (String.eqb_spec p k) as [<-|Hne].
    + rewrite get_set_same. intros H. injection H as <-. simpl. now apply Hpi.
    + rewrite get_set_other by exact Hne. auto.
  - now apply (follows_ok_grow s).
  - intros l Hin. rewrite has_set. rewrite Hlp; [apply orb_true_r|].
    rewrite Hs in Hin. rewrite Hl. rewrite in_app_iff in *. simpl. tauto.
  - intros k r. unfold likesOf. simpl. rewrite Hs.
    assert (Hold : forall k0,
               length (filter (fun l => String.eqb (postId l) k0) (likes s))
               = (length (filter (fun l => String.eqb (postId l) k0) (l1 ++ l2))
                  + if String.eqb p k0 then 1 else 0)%nat).
    { intros k0. rewrite Hl, !filter_app, !length_app. simpl.
      destruct (String.eqb p k0); simpl; lia. }
    destruct (String.eqb_spec p k) as [<-|Hne].
    + rewrite get_set_same. intros H. injection H as <-. simpl.
      rewrite (Hlc p q Hq). unfold likesOf. rewrite Hold, String.eqb_refl. lia.
    + rewrite get_set_other by exact Hne. intros Hk.
      rewrite (Hlc k r Hk). unfold likesOf. rewrite Hold.
      destruct (String.eqb_spec p k); [contradiction | lia].
Qed.

Lemma distinct_NoDup {A} (eq : A -> A -> bool) (l : list A) :
  (forall x y, eq x y = true <-> x = y) -> distinct eq l = true -> NoDup l.
Proof.
  intros Heq. induction l as [|x l IH]; simpl; [constructor|].
  rewrite andb_true_iff, negb_true_iff. intros [Hx Hl].
  constructor; [|now apply IH].
  intros Hin. apply not_true_iff_false in Hx. apply Hx.
  apply existsb_exists. exists x. split; [exact Hin | now apply Heq].
Qed.

Lemma store_okb_ok s : store_okb s = true -> store_ok s.
Proof.
  unfold store_okb. rewrite !andb_true_iff.
  intros [[[[[[Hun Hu] Hpn] Hp] Hfn] Hf] Hl].
  apply (distinct_NoDup _ _ String.eqb_eq) in Hun, Hpn.
  apply distinct_NoDup in Hfn;
    [|intros [a b] g; simpl; rewrite same_edge_true; split; congruence].
  rewrite forallb_forall in Hu, Hp, Hf, Hl.
  assert (Hf' : forall f, In f (follows s) ->
            followerId f <> followeeId f
            /\ JsObj.has (followerId f) (users s) = true
            /\ JsObj.has (followeeId f) (users s) = true
            /\ followerId f <> "" /\ followeeId f <> "").
  { intros f Hin. specialize (Hf f Hin). rewrite !andb_true_iff in Hf.
    destruct Hf as [[[[H1 H2] H3] H4] H5].
    apply negb_true_iff, String.eqb_neq in H1.
    apply truthy_true in H4, H5. auto. }
  split.
  - exact Hun.
  - intros k u H. apply get_In in H. apply Hu in H. simpl in H.
    apply andb_true_iff in H as [H _]. now apply String.eqb_eq.
  - intros k H. apply has_get in H as [u H]. apply get_In in H. apply Hu in H.
    simpl in H. apply andb_true_iff in H as [_ H]. now apply truthy_true.
  - exact Hpn.
  - intros k p H. apply get_In in H. apply Hp in H. simpl in H.
    apply andb_true_iff in H as [H _]. now apply String.eqb_eq.
  - split; [exact Hfn | | |]; intros f Hin; now apply Hf'.
  - intros f Hin. split; now apply Hf'.
  - exact Hl.
  - intros k p H. apply get_In in H. apply Hp in H. simpl in H.
    apply andb_true_iff in H as [_ H]. now apply Z.eqb_eq.
Qed.

Lemma store_ok_seed now : store_ok (seed now storage_init).
Proof. apply store_okb_ok. vm_compute. reflexivity. Qed.

(** Every store the server can be in satisfies the invariant. *)
Lemma handle_ok a s : store_ok s -> fresh_uuid a s -> store_ok (fst (handle a s)).
Proof.
  intros Hok Hfresh. destruct a; simpl in *.
  - apply Users_post_ok; tauto.
  - apply Posts_post_ok; tauto.
  - now apply Posts_delete_ok.
  - now apply Follows_post_ok.
  - now apply Follows_delete_ok.
  - now apply Likes_post_ok.
  - now apply Likes_delete_ok.
Qed.

Lemma reachable_ok s : reachable s -> store_ok s.
Proof.
  induction 1 as [|now|s _ IH|a s _ IH Hfresh].
  - exact store_ok_init.
  - apply store_ok_seed.
  - apply store_ok_reset.
  - now apply handle_ok.
Qed.

Lemma handle_follows_ok a s : follows_ok s -> follows_ok (fst (handle a s)).
Proof.
  intros Hok. destruct a; simpl.
  - now apply Users_post_follows_ok.
  - unfold Posts.post.
    repeat match goal with |- context [if ?c then _ else _] => destruct c end;
      simpl; try exact Hok; now apply (follows_ok_grow s).
  - unfold Posts.delete. destruct (JsObj.get id (posts s)); simpl;
      [now apply (follows_ok_grow s) | exact Hok].
  - now apply Follows_post_follows_ok.
  - now apply Follows_delete_follows_ok.
  - unfold Likes.post.
    repeat match goal with
           | |- context [if ?c then _ else _] => destruct c
           | |- context [match ?c with Some _ => _ | None => _ end] => destruct c
           end; simpl; try exact Hok; now apply (follows_ok_grow s).
  - unfold Likes.delete.
    repeat match goal with
           | |- context [if ?c then _ else _] => destruct c
           | |- context [match ?c with Some _ => _ | None => _ end] => destruct c
           end; simpl; try exact Hok; now apply (follows_ok_grow s).
Qed.

(** ** Follow edges *)

Lemma NoDup_filter_le1 {A} (f : A -> bool) (c : A) (l : list A) :
  NoDup l -> (forall x, f x = true -> x = c) -> (length (filter f l) <= 1)%nat.
Proof.
  intros Hnd Hf. induction Hnd as [|x l Hx Hnd IH]; simpl; [lia|].
  destruct (f x) eqn:Hfx; [|exact IH].
  apply Hf in Hfx. subst x. rewrite filter_none; [simpl; lia|].
  intros y Hy. destruct (f y) eqn:Hfy; [|reflexivity].
  apply Hf in Hfy. subst y. contradiction.
Qed.

Lemma follows_ok_wellformed s : follows_ok s -> follow_edges_wellformed s.
Proof.
  intros [Hnd Hirr Hfr Hfe]. repeat split.
  - exact Hirr.
  - intros a b. apply (NoDup_filter_le1 _ (mkFollow a b)); [exact Hnd|].
    intros x. apply same_edge_true.
  - apply has_get. now apply Hfr.
  - apply has_get. now apply Hfe.
Qed.

(** With the ids of the requests looked up among the own properties, as in
    [handle], every store reachable from the empty or the seeded store has
    no follow edge from a user to themselves, at most one edge per ordered
    pair, and existing users at both ends of every edge; every route, and
    the reset, leads to a store where the three conditions hold again.  (For
    the lookups of a plain object, see [FollowsJs.post] further down.) *)
Theorem follow_edges_invariant (s : storage) :
  reachable s ->
  follow_edges_wellformed s
  /\ (forall a, follow_edges_wellformed (fst (handle a s)))
  /\ follow_edges_wellformed (reset s).
Proof.
  intros Hr. pose proof (ok_follows s (reachable_ok s Hr)) as Hok.
  split; [|split].
  - now apply follows_ok_wellformed.
  - intros a. now apply follows_ok_wellformed, handle_follows_ok.
  - apply follows_ok_wellformed, store_ok_reset.
Qed.

Lemma follow_edges_invariant_witness :
  follow_edges_wellformed
    (fst (handle (DoFollow SEED_IDS.frank SEED_IDS.alice) (seed 0 storage_init))).
Proof.
  refine (proj1 (follow_edges_invariant _ _)).
  exact (reachable_step (DoFollow SEED_IDS.frank SEED_IDS.alice) _ (reachable_seed 0) I).
Defined.

(** C9.  Whatever the store, a user cannot follow themselves: the request
    is rejected as a bad request (status 400) before any lookup, the store is
    left as it was, and the answer is neither the success, nor a 404, nor the
    answer given to a duplicate follow. *)
Theorem self_follow_rejected (s : storage) (u : string) :
  JsObj.has u (users s) = true ->
  Follows.post u u s
  = (s, mkResponse 400
          (Error (if truthy u then "a user cannot follow themselves"
                  else "followerId and followeeId are required")))
  /\ status (snd (Follows.post u u s)) <> 201%nat
  /\ status (snd (Follows.post u u s)) <> 404%nat
  /\ json (snd (Follows.post u u s)) <> Error "already following this user"
  /\ (reachable s ->
      Follows.post u u s
      = (s, mkResponse 400 (Error "a user cannot follow themselves"))).
Proof.
  intros Hu.
  assert (H : Follows.post u u s
              = (s, mkResponse 400
                      (Error (if truthy u then "a user cannot follow themselves"
                              else "followerId and followeeId are required")))).
  { unfold Follows.post.
    destruct (truthy u); simpl; [|reflexivity]. now rewrite String.eqb_refl. }
  rewrite H. simpl. repeat split; try discriminate.
  - destruct (truthy u); discriminate.
  - intros Hr. apply (ok_users_truthy s (reachable_ok s Hr)), truthy_true in Hu.
    now rewrite Hu.
Qed.

Lemma self_follow_rejected_witness :
  Follows.post SEED_IDS.alice SEED_IDS.alice (seed 0 storage_init)
  = (seed 0 storage_init,
     mkResponse 400 (Error "a user cannot follow themselves")).
Proof.
  apply (self_follow_rejected (seed 0 storage_init) SEED_IDS.alice).
  - vm_compute. reflexivity.
  - apply reachable_seed.
Defined.

(** ** Failed follow and unfollow requests *)






(** ** Counts and resolved lists *)




(** ** The denormalised like counter *)









(** ** The feed *)

Lemma followeesOf_In s u c : In c (followeesOf s u) <-> In (mkFollow u c) (follows s).
Proof.
  unfold followeesOf. rewrite in_map_iff. split.
  - intros [[a b] [Hb Hf]]. apply filter_In in Hf as [Hf Ha].
    simpl in *. apply String.eqb_eq in Ha. now subst.
  - intros Hf. exists (mkFollow u c). split; [reflexivity|].
    apply filter_In. split; [exact Hf | apply String.eqb_refl].
Qed.

Lemma followee_set_has s u c : JsSet.has c (JsSet.from (followeesOf s u)) = edge s u c.
Proof.
  apply eq_true_iff_eq.
  now rewrite JsSet_has_In, JsSet_from_In, followeesOf_In, edge_In.
Qed.

Lemma followeesOf_NoDup s u : NoDup (follows s) -> NoDup (followeesOf s u).
Proof.
  unfold followeesOf. induction (follows s) as [|[a b] l IH]; simpl; [constructor|].
  intros Hnd. inversion_clear Hnd as [|? ? Hnotin Hnd'].
  destruct (String.eqb_spec a u) as [->|Hne]; simpl; [|now apply IH].
  constructor; [|now apply IH].
  intros Hin. apply in_map_iff in Hin as [[a' b'] [Hb Hf]].
  apply filter_In in Hf as [Hf Ha]. simpl in *.
  apply String.eqb_eq in Ha. subst. contradiction.
Qed.

Lemma Sorted_map {A B} (R : B -> B -> Prop) (g : A -> B) (l : list A) :
  Sorted (fun x y => R (g x) (g y)) l -> Sorted R (map g l).
Proof.
  induction 1 as [|x l Hs IH Hhd]; simpl; constructor; [exact IH|].
  destruct Hhd; simpl; now constructor.
Qed.



(** ** The suggestion ranking *)

Lemma get_bump mc x c :
  JsObj.get c (bump mc x)
  = if String.eqb c x
    then Some (match JsObj.get c mc with Some n => n | None => 0 end + 1)
    else JsObj.get c mc.
Proof.
  unfold bump. destruct (String.eqb_spec c x) as [->|Hne].
  - apply get_set_same.
  - apply get_set_other. congruence.
Qed.

Lemma bump_fold_get l : forall mc c,
  JsObj.get c (fold_left bump l mc)
  = if Nat.eqb (occ c l) 0 then JsObj.get c mc
    else Some (match JsObj.get c mc with Some n => n | None => 0 end
               + Z.of_nat (occ c l)).
Proof.
  unfold occ. induction l as [|x l IH]; simpl; intros mc c; [reflexivity|].
  rewrite IH, get_bump.
  destruct (String.eqb c x); simpl; [|reflexivity].
  destruct (length (filter (String.eqb c) l)); simpl; f_equal; lia.
Qed.

Lemma bump_fold_NoDup l : forall mc,
  NoDup (JsObj.keys mc) -> NoDup (JsObj.keys (fold_left bump l mc)).
Proof.
  induction l as [|x l IH]; simpl; intros mc Hnd; [exact Hnd|].
  apply IH. now apply NoDup_keys_set.
Qed.

Lemma fill_fold_get (excluded : string -> bool) K : forall mc c,
  JsObj.get c (fold_left (fill_step excluded) K mc)
  = match JsObj.get c mc with
    | Some n => Some n
    | None => if existsb (String.eqb c) K && negb (excluded c) then Some 0 else None
    end.
Proof.
  induction K as [|x K IH]; simpl; intros mc c.
  - now destruct (JsObj.get c mc).
  - rewrite IH. unfold fill_step, JsObj.has.
    destruct (String.eqb_spec c x) as [->|Hne]; simpl.
    + destruct (excluded x) eqn:Hex; simpl.
      * rewrite andb_false_r. reflexivity.
      * destruct (JsObj.get x mc) eqn:Hx; simpl; [now rewrite Hx|].
        now rewrite get_set_same.
    + destruct (excluded x); [reflexivity|].
      destruct (JsObj.get x mc); simpl; [reflexivity|].
      now rewrite get_set_other by congruence.
Qed.

Lemma fill_fold_NoDup (excluded : string -> bool) K : forall mc,
  NoDup (JsObj.keys mc) -> NoDup (JsObj.keys (fold_left (fill_step excluded) K mc)).
Proof.
  induction K as [|x K IH]; simpl; intros mc Hnd; [exact Hnd|].
  apply IH. unfold fill_step.
  destruct (excluded x); [exact Hnd|].
  destruct (negb (JsObj.has x mc)); [now apply NoDup_keys_set | exact Hnd].
Qed.

(** The two nested loops over the followees and their edges perform one
    increment per candidate that is not excluded, in order. *)
Lemma tally_inner (excluded : string -> bool) (l : list Follow) : forall mc,
  fold_left (fun (mc : JsObj.t Z) f => if excluded (followeeId f) then mc
                                        else bump mc (followeeId f)) l mc
  = fold_left bump (filter (fun c => negb (excluded c)) (map followeeId l)) mc.
Proof.
  induction l as [|f l IH]; simpl; intros mc; [reflexivity|].
  rewrite IH. now destruct (excluded (followeeId f)).
Qed.

Lemma tally_outer (excluded : string -> bool) (s : storage) (A : list string) : forall mc,
  fold_left
    (fun (mc : JsObj.t Z) fid =>
       fold_left (fun (mc : JsObj.t Z) f => if excluded (followeeId f) then mc
                                             else bump mc (followeeId f))
                 (filter (fun f => String.eqb (followerId f) fid) (follows s)) mc)
    A mc
  = fold_left bump
      (flat_map (fun fid => filter (fun c => negb (excluded c)) (followeesOf s fid)) A)
      mc.
Proof.
  induction A as [|fid A IH]; simpl; intros mc; [reflexivity|].
  now rewrite fold_left_app, IH, tally_inner.
Qed.

Lemma computeSuggestions_unfold u s :
  Suggestions.computeSuggestions u s
  = map (fun e => mkSuggestion (JsObj.get (fst e) (users s)) (snd e))
        (JsArray.sort (fun a b => snd b - snd a) (mutualCounts s u)).
Proof.
  unfold Suggestions.computeSuggestions, mutualCounts, JsObj.entries.
  do 3 f_equal.
  apply (tally_outer (excluded s u) s).
Qed.

Lemma excluded_false s u c :
  excluded s u c = false <-> c <> u /\ edge s u c = false.
Proof.
  unfold excluded. rewrite followee_set_has, orb_false_iff.
  now rewrite String.eqb_neq.
Qed.

Lemma occ_app c l1 l2 : occ c (l1 ++ l2) = (occ c l1 + occ c l2)%nat.
Proof. unfold occ. now rewrite filter_app, length_app. Qed.

Lemma occ_filter c (p : string -> bool) l :
  occ c (filter p l) = if p c then occ c l else O.
Proof.
  unfold occ. induction l as [|x l IH]; simpl; [now destruct (p c)|].
  destruct (String.eqb_spec c x) as [<-|Hne].
  - destruct (p c) eqn:Hp; simpl.
    + rewrite String.eqb_refl. simpl. now rewrite IH.
    + exact IH.
  - destruct (p x); simpl; [|exact IH].
    destruct (String.eqb_spec c x); [contradiction | exact IH].
Qed.

Lemma occ_flat_map c (h : string -> list string) (g : string -> bool) A :
  (forall f, occ c (h f) = if g f then 1%nat else O) ->
  occ c (flat_map h A) = length (filter g A).
Proof.
  intros Hh. induction A as [|f A IH]; simpl; [reflexivity|].
  rewrite occ_app, Hh, IH. now destruct (g f).
Qed.

Lemma filter_length_existsb {A} (p : A -> bool) (l : list A) :
  (length (filter p l) <= 1)%nat ->
  length (filter p l) = if existsb p l then 1%nat else O.
Proof.
  induction l as [|x l IH]; simpl; [reflexivity|].
  destruct (p x); simpl; intros Hle.
  - lia.
  - now apply IH.
Qed.

Lemma occ_followeesOf s f c :
  NoDup (follows s) -> occ c (followeesOf s f) = if edge s f c then 1%nat else O.
Proof.
  intros Hnd. unfold edge.
  rewrite <- filter_length_existsb
    by (apply (NoDup_filter_le1 _ (mkFollow f c)); [exact Hnd|];
        intros x; apply same_edge_true).
  unfold occ, followeesOf, Follows.same_edge. clear Hnd.
  induction (follows s) as [|[a b] l IH]; simpl; [reflexivity|].
  destruct (String.eqb a f); simpl; [|exact IH].
  rewrite (String.eqb_sym c b). destruct (String.eqb b c); simpl; now rewrite IH.
Qed.

Lemma occ_candidates s u c :
  NoDup (follows s) ->
  occ c (flat_map (fun fid => filter (fun c => negb (excluded s u c)) (followeesOf s fid))
                  (JsSet.from (followeesOf s u)))
  = if excluded s u c then O else paths2 s u c.
Proof.
  intros Hnd.
  rewrite (JsSet_from_NoDup_id (followeesOf s u)) by now apply followeesOf_NoDup.
  destruct (excluded s u c) eqn:Hex.
  - rewrite (occ_flat_map c _ (fun _ => false)).
    + now rewrite filter_none.
    + intros f. now rewrite occ_filter, Hex.
  - apply occ_flat_map. intros f. rewrite occ_filter, Hex. simpl.
    now apply occ_followeesOf.
Qed.

Lemma paths2_pos_user s u c :
  follows_ok s -> paths2 s u c <> O -> JsObj.has c (users s) = true.
Proof.
  intros [_ _ _ Hfe] Hpos. unfold paths2 in Hpos.
  destruct (filter (fun f => edge s f c) (followeesOf s u)) as [|f l] eqn:Hf;
    [contradiction|].
  assert (Hin : In f (filter (fun f => edge s f c) (followeesOf s u)))
    by (rewrite Hf; now left).
  apply filter_In in Hin as [_ He]. apply edge_In in He. exact (Hfe _ He).
Qed.

Lemma existsb_eqb_keys {V} c (o : JsObj.t V) :
  existsb (String.eqb c) (JsObj.keys o) = JsObj.has c o.
Proof.
  apply eq_true_iff_eq. rewrite existsb_exists, has_keys. split.
  - intros [x [Hx He]]. apply String.eqb_eq in He. now subst.
  - intros H. exists c. split; [exact H | apply String.eqb_refl].
Qed.

(** The tally at the end of the three loops: one entry per eligible user,
    holding the number of paths of length two. *)
Lemma mutualCounts_get s u c :
  store_ok s ->
  JsObj.get c (mutualCounts s u)
  = if JsObj.has c (users s) && negb (excluded s u c)
    then Some (Z.of_nat (paths2 s u c)) else None.
Proof.
  intros Hok. pose proof (ok_follows s Hok) as Hfol.
  unfold mutualCounts. rewrite fill_fold_get, bump_fold_get.
  rewrite occ_candidates by apply (follows_NoDup s Hfol).
  rewrite existsb_eqb_keys. simpl.
  destruct (excluded s u c) eqn:Hex; simpl.
  - now rewrite andb_false_r.
  - rewrite andb_true_r.
    destruct (paths2 s u c) as [|n] eqn:Hn; simpl.
    + now destruct (JsObj.has c (users s)).
    + rewrite (paths2_pos_user s u c Hfol) by (rewrite Hn; discriminate).
      reflexivity.
Qed.

Lemma mutualCounts_NoDup s u : NoDup (JsObj.keys (mutualCounts s u)).
Proof.
  unfold mutualCounts. apply fill_fold_NoDup, bump_fold_NoDup. constructor.
Qed.

(** The ranked entries behind the answer of [computeSuggestions]. *)
Lemma computeSuggestions_spec s u :
  store_ok s ->
  exists E : list (string * Z),
    Suggestions.computeSuggestions u s
    = map (fun e => mkSuggestion (JsObj.get (fst e) (users s)) (snd e)) E
    /\ NoDup (map fst E)
    /\ Sorted (fun a b => snd a >= snd b) E
    /\ forall c n, In (c, n) E
                   <-> JsObj.has c (users s) = true /\ c <> u /\ edge s u c = false
                       /\ n = Z.of_nat (paths2 s u c).
Proof.
  intros Hok.
  set (cmp := fun a b : string * Z => snd b - snd a).
  exists (JsArray.sort cmp (mutualCounts s u)).
  pose proof (sort_Permutation cmp (mutualCounts s u)) as Hperm.
  split; [apply computeSuggestions_unfold|].
  split; [|split].
  - apply (Permutation_NoDup (Permutation_map fst Hperm)), mutualCounts_NoDup.
  - apply (sort_Sorted cmp snd). reflexivity.
  - intros c n.
    assert (Hin : In (c, n) (JsArray.sort cmp (mutualCounts s u))
                  <-> JsObj.get c (mutualCounts s u) = Some n).
    { split.
      - intros H. apply In_get; [apply mutualCounts_NoDup|].
        now apply (Permutation_in _ (Permutation_sym Hperm)).
      - intros H. apply (Permutation_in _ Hperm). now apply get_In. }
    rewrite Hin, (mutualCounts_get s u c Hok).
    destruct (JsObj.has c (users s)); simpl.
    + destruct (excluded s u c) eqn:Hex; simpl; split.
      * discriminate.
      * intros (_ & Hne & He & _).
        assert (excluded s u c = false) by (apply excluded_false; auto).
        congruence.
      * intros H. injection H as <-. apply excluded_false in Hex as [? ?]. auto.
      * intros (_ & _ & _ & ->). reflexivity.
    + split; [discriminate | intros (H & _); discriminate].
Qed.

Lemma Some_NoDup {A} (l : list A) : NoDup l -> NoDup (map Some l).
Proof.
  induction 1 as [|x l Hx Hnd IH]; simpl; constructor; [|exact IH].
  intros Hin. apply in_map_iff in Hin as [y [Hy Hin]]. injection Hy as ->.
  contradiction.
Qed.

Lemma suggestions_entries s u :
  store_ok s ->
  NoDup (map suggested_id (Suggestions.computeSuggestions u s))
  /\ Sorted (fun x y => mutualCount x >= mutualCount y)
            (Suggestions.computeSuggestions u s)
  /\ (forall x, In x (Suggestions.computeSuggestions u s) ->
        exists usr,
          suggested x = Some usr
          /\ JsObj.get (User.id usr) (users s) = Some usr
          /\ User.id usr <> u
          /\ edge s u (User.id usr) = false
          /\ mutualCount x = Z.of_nat (paths2 s u (User.id usr)))
  /\ (forall c, JsObj.has c (users s) = true -> c <> u -> edge s u c = false ->
        exists x, In x (Suggestions.computeSuggestions u s)
                  /\ suggested_id x = Some c).
Proof.
  intros Hok.
  destruct (computeSuggestions_spec s u Hok) as (E & -> & Hnd & Hsorted & HE).
  set (entry := fun e : string * Z => mkSuggestion (JsObj.get (fst e) (users s)) (snd e)).
  assert (Hent : forall e, In e E ->
            exists usr, JsObj.get (fst e) (users s) = Some usr
                        /\ User.id usr = fst e
                        /\ fst e <> u /\ edge s u (fst e) = false
                        /\ snd e = Z.of_nat (paths2 s u (fst e))).
  { intros [c n] He. apply HE in He as (Hc & Hne & Hedge & ->). simpl.
    apply has_get in Hc as [usr Husr]. exists usr.
    rewrite (ok_users_id s Hok c usr Husr). auto. }
  assert (Hids : map suggested_id (map entry E) = map Some (map fst E)).
  { rewrite !map_map. apply map_ext_in. intros e He.
    destruct (Hent e He) as (usr & Husr & Hid & _).
    unfold suggested_id, entry. simpl. rewrite Husr. simpl. now rewrite Hid. }
  split; [|split; [|split]].
  - rewrite Hids. now apply Some_NoDup.
  - now apply Sorted_map.
  - intros x Hx. apply in_map_iff in Hx as [e [<- He]].
    destruct (Hent e He) as (usr & Husr & Hid & Hne & Hedge & Hn).
    exists usr. simpl. rewrite Hid. auto.
  - intros c Hc Hne Hedge.
    assert (He : In (c, Z.of_nat (paths2 s u c)) E) by (apply HE; auto).
    exists (entry (c, Z.of_nat (paths2 s u c))). split.
    + now apply in_map.
    + destruct (Hent _ He) as (usr & Husr & Hid & _). simpl in *.
      unfold suggested_id, entry. simpl. rewrite Husr. simpl. now rewrite Hid.
Qed.

(** With the ids of the requests looked up among the own properties, as in
    [handle], in every reachable store and for every existing user [u], the
    suggestions of [u] are exactly the users of the store other than [u] and
    the users [u] follows: every entry is such a user, with a mutual count
    that is not negative; every such user has an entry and no id has two;
    there is no entry for [u] or for a followed user; and the counts go
    down along the sequence.  (For a store that holds an edge to a name of
    [Object.prototype], see [SuggestionsJs.computeSuggestions] further
    down.) *)
Theorem suggestions_are_the_eligible_users (s : storage) (u : string) :
  reachable s ->
  JsObj.has u (users s) = true ->
  (forall x, In x (Suggestions.computeSuggestions u s) ->
     exists usr,
       suggested x = Some usr
       /\ JsObj.get (User.id usr) (users s) = Some usr
       /\ User.id usr <> u
       /\ ~ In (mkFollow u (User.id usr)) (follows s)
       /\ 0 <= mutualCount x)
  /\ (forall c, In (Some c) (map suggested_id (Suggestions.computeSuggestions u s))
                <-> JsObj.has c (users s) = true /\ c <> u
                    /\ ~ In (mkFollow u c) (follows s))
  /\ NoDup (map suggested_id (Suggestions.computeSuggestions u s))
  /\ Sorted (fun x y => mutualCount x >= mutualCount y)
            (Suggestions.computeSuggestions u s).
Proof.
  intros Hr _. pose proof (reachable_ok s Hr) as Hok.
  destruct (suggestions_entries s u Hok) as (Hnd & Hsorted & Hin & Hall).
  split; [|split; [|split]]; [ | |exact Hnd|exact Hsorted].
  - intros x Hx. destruct (Hin x Hx) as (usr & Hs & Hg & Hne & He & Hn).
    exists usr. rewrite Hn. apply edge_false in He. repeat split; auto. lia.
  - intros c. split.
    + intros Hc. apply in_map_iff in Hc as [x [Hid Hx]].
      destruct (Hin x Hx) as (usr & Hs & Hg & Hne & He & _).
      unfold suggested_id in Hid. rewrite Hs in Hid. simpl in Hid.
      injection Hid as <-. apply edge_false in He.
      split; [apply has_get; eauto | auto].
    + intros (Hc & Hne & He). apply edge_false in He.
      destruct (Hall c Hc Hne He) as (x & Hx & Hid).
      rewrite <- Hid. now apply in_map.
Qed.

Lemma suggestions_are_the_eligible_users_witness :
  NoDup (map suggested_id
             (Suggestions.computeSuggestions SEED_IDS.bob (seed 0 storage_init)))
  /\ Sorted (fun x y => mutualCount x >= mutualCount y)
            (Suggestions.computeSuggestions SEED_IDS.bob (seed 0 storage_init)).
Proof.
  assert (Hu : JsObj.has SEED_IDS.bob (users (seed 0 storage_init)) = true)
    by (vm_compute; reflexivity).
  exact (proj2 (proj2 (suggestions_are_the_eligible_users
                         _ _ (reachable_seed 0) Hu))).
Defined.

Lemma Follows_post_success a b s :
  a <> "" -> b <> "" -> a <> b ->
  JsObj.has a (users s) = true -> JsObj.has b (users s) = true ->
  edge s a b = false ->
  Follows.post a b s
  = (mkStorage (users s) (posts s) (follows s ++ [mkFollow a b])%list (likes s),
     mkResponse 201 (FollowJson (mkFollow a b))).
Proof.
  intros Ha Hb Hab Hua Hub He. unfold Follows.post.
  apply truthy_true in Ha, Hb. rewrite Ha, Hb, Hua, Hub. simpl.
  apply String.eqb_neq in Hab. rewrite Hab.
  unfold JsArray.some. fold (edge s a b). now rewrite He.
Qed.

Lemma run_reachable acts : forall s,
  reachable s -> run_fresh acts s -> reachable (run acts s).
Proof.
  induction acts as [|a acts IH]; simpl; intros s Hr Hf; [exact Hr|].
  destruct Hf as [Ha Hf]. apply IH; [|exact Hf]. now apply reachable_step.
Qed.

Lemma Scenario_reachable : reachable Scenario.store.
Proof.
  apply run_reachable; [apply reachable_init|].
  vm_compute. repeat split.
Qed.

Example Scenario_suggestions :
  map (fun x => (suggested_id x, mutualCount x))
      (Suggestions.computeSuggestions Scenario.A Scenario.store)
  = [(Some Scenario.C, 1)]
  /\ Suggestions.computeSuggestions Scenario.A
       (fst (Follows.post Scenario.A Scenario.C Scenario.store))
     = [].
Proof. split; vm_compute; reflexivity. Qed.

(** ** The two suggestion routes *)



(** ** What each mutating route does to the store *)

Lemma Users_post_effect uuid now username displayName bio pic s :
  (Users.post uuid now username displayName bio pic s
   = (s, snd (Users.post uuid now username displayName bio pic s))
   /\ status (snd (Users.post uuid now username displayName bio pic s)) = 400%nat)
  \/ (exists user,
        Users.post uuid now username displayName bio pic s
        = (mkStorage (JsObj.set uuid user (users s)) (posts s) (follows s) (likes s),
           mkResponse 201 (UserJson user))
        /\ User.id user = uuid
        /\ User.username user = JsString.trim username
        /\ User.displayName user = JsString.trim displayName
        /\ User.createdAt user = now
        /\ JsString.trim username <> ""
        /\ JsString.trim displayName <> ""
        /\ existsb (fun u => String.eqb (JsString.toLowerCase (User.username u))
                                        (JsString.toLowerCase (JsString.trim username)))
                   (JsObj.values (users s)) = false).
Proof.
  unfold Users.post, JsArray.some.
  destruct (truthy username); simpl; [|left; auto].
  destruct (String.eqb_spec (JsString.trim username) "") as [|Hu]; [left; auto|].
  destruct (truthy displayName); simpl; [|left; auto].
  destruct (String.eqb_spec (JsString.trim displayName) "") as [|Hd]; [left; auto|].
  destruct (existsb _ _) eqn:Hex; [left; auto|].
  right. eexists. split; [reflexivity|]. simpl. auto 10.
Qed.

Lemma Posts_post_effect uuid now authorId content mediaType mediaUrl s :
  (Posts.post uuid now authorId content mediaType mediaUrl s
   = (s, snd (Posts.post uuid now authorId content mediaType mediaUrl s))
   /\ status (snd (Posts.post uuid now authorId content mediaType mediaUrl s)) = 400%nat)
  \/ (exists post,
        Posts.post uuid now authorId content mediaType mediaUrl s
        = (mkStorage (users s) (JsObj.set uuid post (posts s)) (follows s) (likes s),
           mkResponse 201 (PostJson post))
        /\ Post.id post = uuid
        /\ Post.authorId post = authorId
        /\ Post.content post = JsString.trim content
        /\ Post.createdAt post = now
        /\ Post.likesCount post = 0
        /\ JsObj.has authorId (users s) = true
        /\ JsString.trim content <> ""
        /\ (mediaType = None \/ mediaType = Some "image" \/ mediaType = Some "video")
        /\ Post.mediaType post = mediaType).
Proof.
  unfold Posts.post.
  destruct (truthy authorId); simpl; [|left; auto].
  destruct (JsObj.has authorId (users s)); simpl; [|left; auto].
  destruct (truthy content); simpl; [|left; auto].
  destruct (String.eqb_spec (JsString.trim content) "") as [|Hc]; [left; auto|].
  destruct mediaType as [m|]; simpl.
  - destruct (String.eqb_spec m "image") as [->|Hi]; simpl.
    + right. eexists. split; [reflexivity|]. simpl. auto 12.
    + destruct (String.eqb_spec m "video") as [->|Hv]; simpl; [|left; auto].
      right. eexists. split; [reflexivity|]. simpl. auto 12.
  - right. eexists. split; [reflexivity|]. simpl. auto 12.
Qed.

Lemma Posts_delete_effect id s :
  (JsObj.get id (posts s) = None
   /\ Posts.delete id s = (s, mkResponse 404 (Error "post not found")))
  \/ (JsObj.has id (posts s) = true
      /\ Posts.delete id s
         = (mkStorage (users s) (JsObj.delete id (posts s)) (follows s)
                      (filter (fun l => negb (String.eqb (postId l) id)) (likes s)),
            mkResponse 204 NoContent)).
Proof.
  unfold Posts.delete, JsObj.has.
  destruct (JsObj.get id (posts s)); [right | left]; auto.
Qed.

Lemma Likes_post_effect p u s :
  (Likes.post p u s = (s, snd (Likes.post p u s))
   /\ (status (snd (Likes.post p u s)) = 400%nat
       \/ status (snd (Likes.post p u s)) = 404%nat))
  \/ (exists post,
        JsObj.get p (posts s) = Some post
        /\ u <> ""
        /\ JsObj.has u (users s) = true
        /\ ~ In (mkLike u p) (likes s)
        /\ Likes.post p u s
           = (mkStorage (users s)
                (JsObj.set p (Post.with_likesCount post (Post.likesCount post + 1))
                           (posts s))
                (follows s) (likes s ++ [mkLike u p])%list,
              mkResponse 201 (LikeJson (mkLike u p) (Post.likesCount post + 1)))).
Proof.
  unfold Likes.post, JsArray.some.
  destruct (truthy u) eqn:Hu; simpl; [|left; auto].
  destruct (JsObj.get p (posts s)) as [post|]; [|left; auto].
  destruct (JsObj.has u (users s)); simpl; [|left; auto].
  destruct (existsb _ _) eqn:Hex; [left; auto|].
  right. exists post. apply truthy_true in Hu. repeat split; auto.
  intros Hin. apply not_true_iff_false in Hex. apply Hex.
  apply existsb_exists. exists (mkLike u p). split; [exact Hin|].
  now apply same_like_true.
Qed.

Lemma Likes_delete_effect p u s :
  (Likes.delete p u s = (s, snd (Likes.delete p u s))
   /\ (status (snd (Likes.delete p u s)) = 400%nat
       \/ status (snd (Likes.delete p u s)) = 404%nat))
  \/ (exists post l1 l2,
        JsObj.get p (posts s) = Some post
        /\ u <> ""
        /\ likes s = (l1 ++ mkLike u p :: l2)%list
        /\ ~ In (mkLike u p) l1
        /\ Likes.delete p u s
           = (mkStorage (users s)
                (JsObj.set p
                   (Post.with_likesCount post (Z.max 0 (Post.likesCount post - 1)))
                   (posts s))
                (follows s) (l1 ++ l2)%list,
              mkResponse 200
                (MessageLikes "unliked successfully"
                              (Z.max 0 (Post.likesCount post - 1))))).
Proof.
  unfold Likes.delete.
  destruct (truthy u) eqn:Hu; simpl; [|left; auto].
  destruct (JsObj.get p (posts s)) as [post|]; [|left; auto].
  destruct (JsArray.findIndex _ _) as [i|] eqn:Hi; [|left; auto].
  apply findIndex_splice1 in Hi as (l1 & x & l2 & Hl & Hx & Hl1 & Hs).
  apply same_like_true in Hx. subst x.
  right. exists post, l1, l2. apply truthy_true in Hu. rewrite Hs.
  repeat split; auto.
  intros Hin. apply not_true_iff_false in Hl1. apply Hl1.
  apply existsb_exists. exists (mkLike u p). split; [exact Hin|].
  now apply same_like_true.
Qed.

(** ** Ids that name a member of [Object.prototype] *)

Lemma inherits_length k :
  ObjectPrototype.inherits k = true -> (String.length k <= 20)%nat.
Proof.
  unfold ObjectPrototype.inherits, ObjectPrototype.names. simpl.
  repeat match goal with
         | |- (String.eqb k ?n || _)%bool = true -> _ =>
             destruct (String.eqb_spec k n) as [->|_]; [intros _; simpl; lia|]; simpl
         end.
  discriminate.
Qed.

Lemma uuid_not_inherited k :
  String.length k = 36%nat -> ObjectPrototype.inherits k = false.
Proof.
  intros Hk. destruct (ObjectPrototype.inherits k) eqn:Hi; [|reflexivity].
  apply inherits_length in Hi. lia.
Qed.

Lemma truthy_at_plain {V} k (o : JsObj.t V) :
  ObjectPrototype.inherits k = false -> ObjectPrototype.truthy_at k o = JsObj.has k o.
Proof. unfold ObjectPrototype.truthy_at. intros ->. apply orb_false_r. Qed.

Lemma truthy_at_own {V} k (o : JsObj.t V) :
  JsObj.has k o = true -> ObjectPrototype.truthy_at k o = true.
Proof. unfold ObjectPrototype.truthy_at. now intros ->. Qed.

(** On ids that are not names of [Object.prototype], the follow route with
    the lookups of a plain object is the route of [Follows]. *)
Lemma FollowsJs_post_plain a b s :
  ObjectPrototype.inherits a = false -> ObjectPrototype.inherits b = false ->
  FollowsJs.post a b s = Follows.post a b s.
Proof.
  intros Ha Hb. unfold FollowsJs.post, Follows.post.
  now rewrite (truthy_at_plain a _ Ha), (truthy_at_plain b _ Hb).
Qed.

Lemma FollowsJs_post_users a b s :
  JsObj.has a (users s) = true -> JsObj.has b (users s) = true ->
  FollowsJs.post a b s = Follows.post a b s.
Proof.
  intros Ha Hb. unfold FollowsJs.post, Follows.post.
  now rewrite (truthy_at_own a _ Ha), (truthy_at_own b _ Hb), Ha, Hb.
Qed.

Lemma get_as_counts c mc :
  JsObj.get c (as_counts mc) = option_map Num (JsObj.get c mc).
Proof.
  unfold as_counts. induction mc as [|[k v] mc IH]; simpl; [reflexivity|].
  now destruct (String.eqb k c).
Qed.

Lemma set_as_counts c n mc :
  JsObj.set c (Num n) (as_counts mc) = as_counts (JsObj.set c n mc).
Proof.
  unfold as_counts. induction mc as [|[k v] mc IH]; simpl; [reflexivity|].
  destruct (String.eqb k c); simpl; [reflexivity|]. now rewrite IH.
Qed.

Lemma increment_as_counts c mc :
  ObjectPrototype.inherits c = false ->
  SuggestionsJs.increment c (as_counts mc) = as_counts (bump mc c).
Proof.
  intros Hc. unfold SuggestionsJs.increment, bump.
  rewrite get_as_counts, Hc.
  destruct (JsObj.get c mc) as [n|]; simpl.
  - rewrite set_as_counts. destruct (Z.eqb_spec n 0) as [->|_]; reflexivity.
  - now rewrite set_as_counts.
Qed.

Lemma insert_as_counts e mc :
  JsArray.insert SuggestionsJs.compare (fst e, Num (snd e)) (as_counts mc)
  = as_counts (JsArray.insert (fun a b => snd b - snd a) e mc).
Proof.
  unfold as_counts. induction mc as [|x mc IH]; simpl; [reflexivity|].
  unfold SuggestionsJs.compare at 1. simpl.
  destruct (snd x - snd e <=? 0); simpl; [reflexivity|]. now rewrite IH.
Qed.

Lemma sort_as_counts mc :
  JsArray.sort SuggestionsJs.compare (as_counts mc)
  = as_counts (JsArray.sort (fun a b => snd b - snd a) mc).
Proof.
  induction mc as [|e mc IH]; [reflexivity|].
  change (as_counts (e :: mc)) with ((fst e, Num (snd e)) :: as_counts mc).
  cbn [JsArray.sort]. rewrite IH. apply insert_as_counts.
Qed.

Lemma tally_inner_as_counts (excluded : string -> bool) (l : list Follow) : forall mc,
  (forall f, In f l -> ObjectPrototype.inherits (followeeId f) = false) ->
  fold_left (fun (mc : JsObj.t count) f =>
               if excluded (followeeId f) then mc
               else SuggestionsJs.increment (followeeId f) mc) l (as_counts mc)
  = as_counts
      (fold_left (fun (mc : JsObj.t Z) f =>
                    if excluded (followeeId f) then mc
                    else bump mc (followeeId f)) l mc).
Proof.
  induction l as [|f l IH]; simpl; intros mc Hl; [reflexivity|].
  destruct (excluded (followeeId f)).
  - apply IH. auto.
  - rewrite increment_as_counts by auto. apply IH. auto.
Qed.

Lemma tally_outer_as_counts (excluded : string -> bool) (s : storage) (A : list string) :
  (forall f, In f (follows s) -> ObjectPrototype.inherits (followeeId f) = false) ->
  forall mc,
  fold_left
    (fun (mc : JsObj.t count) fid =>
       fold_left (fun (mc : JsObj.t count) f =>
                    if excluded (followeeId f) then mc
                    else SuggestionsJs.increment (followeeId f) mc)
                 (filter (fun f => String.eqb (followerId f) fid) (follows s)) mc)
    A (as_counts mc)
  = as_counts
      (fold_left
         (fun (mc : JsObj.t Z) fid =>
            fold_left (fun (mc : JsObj.t Z) f =>
                         if excluded (followeeId f) then mc
                         else bump mc (followeeId f))
                      (filter (fun f => String.eqb (followerId f) fid) (follows s)) mc)
         A mc).
Proof.
  intros Hs. induction A as [|fid A IH]; simpl; intros mc; [reflexivity|].
  rewrite tally_inner_as_counts; [apply IH|].
  intros f Hf. apply filter_In in Hf as [Hf _]. auto.
Qed.

Lemma has_as_counts c mc : JsObj.has c (as_counts mc) = JsObj.has c mc.
Proof. unfold JsObj.has. rewrite get_as_counts. now destruct (JsObj.get c mc). Qed.

Lemma fill_as_counts (excluded : string -> bool) (K : list string) : forall mc,
  (forall k, In k K -> ObjectPrototype.inherits k = false) ->
  fold_left
    (fun (mc : JsObj.t count) uid =>
       if excluded uid then mc
       else if negb (ObjectPrototype.in_ uid mc)
            then JsObj.set uid (Num 0) mc else mc)
    K (as_counts mc)
  = as_counts (fold_left (fill_step excluded) K mc).
Proof.
  induction K as [|k K IH]; simpl; intros mc HK; [reflexivity|].
  unfold fill_step at 2. destruct (excluded k); [apply IH; auto|].
  unfold ObjectPrototype.in_. rewrite has_as_counts, (HK k) by now left.
  rewrite orb_false_r.
  destruct (JsObj.has k mc); simpl; [apply IH; auto|].
  rewrite set_as_counts. apply IH. auto.
Qed.

(** In a store without such names among the ends of the edges and the keys
    of the users, [computeSuggestions] over a plain object answers as
    [Suggestions.computeSuggestions], every count being a number. *)
Lemma SuggestionsJs_plain u s :
  plain_ids s ->
  SuggestionsJs.computeSuggestions u s
  = map (fun x => (suggested x, Num (mutualCount x)))
        (Suggestions.computeSuggestions u s).
Proof.
  intros [Hf Hk].
  unfold SuggestionsJs.computeSuggestions, Suggestions.computeSuggestions, JsObj.entries.
  set (A := JsSet.from _).
  set (excl := fun c => (String.eqb c u || JsSet.has c A)%bool).
  change (@JsObj.empty count) with (as_counts (@JsObj.empty Z)).
  rewrite (tally_outer_as_counts excl s A Hf).
  rewrite (fill_as_counts excl (JsObj.keys (users s)) _ Hk).
  rewrite sort_as_counts. unfold as_counts. rewrite !map_map. reflexivity.
Qed.

Lemma handle_users_keys a s k :
  fresh_uuid a s ->
  In k (JsObj.keys (users (fst (handle a s)))) ->
  In k (JsObj.keys (users s)) \/ String.length k = 36%nat.
Proof.
  intros Hfresh.
  destruct a as [uuid now un dn bio pic|uuid now au co mt mu|id|a b|a b|u p|u p];
    simpl in *.
  - destruct (Users_post_effect uuid now un dn bio pic s)
      as [[He _]|(usr & He & _)]; rewrite He; simpl; [auto|].
    rewrite keys_set. destruct (JsObj.has uuid (users s)); [auto|].
    rewrite in_app_iff. simpl. intros [H|[<-|[]]]; [auto|]. right. apply Hfresh.
  - destruct (Posts_post_effect uuid now au co mt mu s)
      as [[He _]|(post & He & _)]; rewrite He; simpl; auto.
  - destruct (Posts_delete_effect id s) as [[_ He]|[_ He]]; rewrite He; simpl; auto.
  - unfold Follows.post.
    repeat match goal with |- context [if ?c then _ else _] => destruct c end;
      simpl; auto.
  - unfold Follows.delete.
    destruct (negb (truthy a) || negb (truthy b))%bool; simpl; auto.
    destruct (JsArray.findIndex _ _); simpl; auto.
  - destruct (Likes_post_effect p u s) as [[He _]|(post & _ & _ & _ & _ & He)];
      rewrite He; simpl; auto.
  - destruct (Likes_delete_effect p u s)
      as [[He _]|(post & l1 & l2 & _ & _ & _ & _ & He)]; rewrite He; simpl; auto.
Qed.

(** The stores of [reachable] hold no name of [Object.prototype]: the keys
    of the users are seed ids and UUIDs, and the ends of the edges are users. *)
Lemma seed_users_plain now k :
  In k (JsObj.keys (users (seed now storage_init))) ->
  ObjectPrototype.inherits k = false.
Proof.
  assert (H : JsObj.keys (users (seed now storage_init))
              = [SEED_IDS.alice; SEED_IDS.bob; SEED_IDS.carol; SEED_IDS.dave;
                 SEED_IDS.eve; SEED_IDS.frank])
    by (vm_compute; reflexivity).
  rewrite H. clear H. intros Hin.
  repeat (destruct Hin as [<-|Hin]; [vm_compute; reflexivity|]).
  destruct Hin.
Qed.

Lemma reachable_plain_ids s : reachable s -> plain_ids s.
Proof.
  intros Hr.
  assert (Hk : forall k, In k (JsObj.keys (users s)) ->
                         ObjectPrototype.inherits k = false).
  { induction Hr as [|now|s _ _|a s Hr IH Hfresh]; intros k Hin.
    - destruct Hin.
    - exact (seed_users_plain now k Hin).
    - destruct Hin.
    - destruct (handle_users_keys a s k Hfresh Hin) as [H|H].
      + exact (IH k H).
      + exact (uuid_not_inherited k H). }
  split; [|exact Hk].
  intros f Hf. apply Hk. apply has_keys.
  exact (follows_followee s (ok_follows s (reachable_ok s Hr)) f Hf).
Qed.

(** C8.  The follow route takes [storage.users[id]] on a plain object for
    the test that a user exists, and a member inherited from
    [Object.prototype] passes it: the request of "constructor" to follow
    "toString" is answered 201 and its edge is stored, in a store where
    neither is a user, so that the edges of the store no longer join existing
    users; any other id that is not a user's is answered 404, as the tests of
    the route expect. *)
Theorem follow_accepts_inherited_names (s : storage) :
  edge s "constructor" "toString" = false ->
  JsObj.has "constructor" (users s) = false ->
  JsObj.has "non-existent-user" (users s) = false ->
  FollowsJs.post "constructor" "toString" s
  = (mkStorage (users s) (posts s)
               (follows s ++ [mkFollow "constructor" "toString"])%list (likes s),
     mkResponse 201 (FollowJson (mkFollow "constructor" "toString")))
  /\ ~ follow_edges_wellformed (fst (FollowsJs.post "constructor" "toString" s))
  /\ FollowsJs.post "non-existent-user" "toString" s
     = (s, mkResponse 404 (Error "follower user not found")).
Proof.
  intros He Hc Hn.
  assert (Hpost : FollowsJs.post "constructor" "toString" s
                  = (mkStorage (users s) (posts s)
                       (follows s ++ [mkFollow "constructor" "toString"])%list (likes s),
                     mkResponse 201 (FollowJson (mkFollow "constructor" "toString")))).
  { unfold FollowsJs.post, ObjectPrototype.truthy_at, JsArray.some. simpl.
    rewrite !orb_true_r. simpl. fold (edge s "constructor" "toString").
    now rewrite He. }
  split; [exact Hpost|]. split.
  - rewrite Hpost. simpl. intros (_ & _ & Hends).
    destruct (Hends (mkFollow "constructor" "toString")) as [[u Hu] _].
    + simpl. apply in_app_iff. right. now left.
    + simpl in Hu. unfold JsObj.has in Hc. now rewrite Hu in Hc.
  - unfold FollowsJs.post, ObjectPrototype.truthy_at. simpl. now rewrite Hn.
Qed.

Lemma follow_accepts_inherited_names_witness :
  status (snd (FollowsJs.post "constructor" "toString" (seed 0 storage_init)))
  = 201%nat
  /\ ~ follow_edges_wellformed
         (fst (FollowsJs.post "constructor" "toString" (seed 0 storage_init))).
Proof.
  assert (He : edge (seed 0 storage_init) "constructor" "toString" = false)
    by (vm_compute; reflexivity).
  assert (Hc : JsObj.has "constructor" (users (seed 0 storage_init)) = false)
    by (vm_compute; reflexivity).
  assert (Hn : JsObj.has "non-existent-user" (users (seed 0 storage_init)) = false)
    by (vm_compute; reflexivity).
  destruct (follow_accepts_inherited_names _ He Hc Hn) as (H1 & H2 & _).
  split; [|exact H2]. rewrite H1. reflexivity.
Defined.

(** C1.  After the follow route has accepted the request of bob to follow
    "constructor" in the seeded store, the suggestions of alice, who follows
    bob, hold an entry that stands for no user of the store, and whose
    [mutualCount] is a string and not a number: the entry of the inherited
    name.  (Before that follow the answer holds eve and frank, and nothing
    else.) *)
Theorem suggestions_list_an_inherited_name :
  let s := seed 0 storage_init in
  let s1 := fst (FollowsJs.post SEED_IDS.bob "constructor" s) in
  snd (FollowsJs.post SEED_IDS.bob "constructor" s)
  = mkResponse 201 (FollowJson (mkFollow SEED_IDS.bob "constructor"))
  /\ users s1 = users s
  /\ JsObj.has SEED_IDS.alice (users s1) = true
  /\ JsObj.has "constructor" (users s1) = false
  /\ In (None, Str "function Object() { [native code] }1")
        (SuggestionsJs.computeSuggestions SEED_IDS.alice s1)
  /\ map (fun e => option_map User.id (fst e))
         (SuggestionsJs.computeSuggestions SEED_IDS.alice s)
     = [Some SEED_IDS.eve; Some SEED_IDS.frank].
Proof.
  cbv zeta.
  split; [vm_compute; reflexivity|].
  split; [vm_compute; reflexivity|].
  split; [vm_compute; reflexivity|].
  split; [vm_compute; reflexivity|].
  split; [|vm_compute; reflexivity].
  vm_compute. left. reflexivity.
Qed.

(** ** The mutual counts over a plain object *)

Lemma increment_keys_NoDup c mc :
  NoDup (JsObj.keys mc) -> NoDup (JsObj.keys (SuggestionsJs.increment c mc)).
Proof.
  intros Hnd. unfold SuggestionsJs.increment.
  destruct (JsObj.get c mc) as [[n|t]|]; try now apply NoDup_keys_set.
  destruct (ObjectPrototype.inherits c); [|now apply NoDup_keys_set].
  destruct (String.eqb c "__proto__"); [exact Hnd | now apply NoDup_keys_set].
Qed.

Lemma tally_NoDup s u : NoDup (JsObj.keys (tally s u)).
Proof.
  unfold tally.
  set (l := flat_map _ _). set (K := JsObj.keys (users s)).
  assert (H1 : forall mc : JsObj.t count, NoDup (JsObj.keys mc) ->
                 NoDup (JsObj.keys (fold_left (fun mc c => SuggestionsJs.increment c mc)
                                              l mc))).
  { induction l as [|x l IH]; simpl; intros mc Hnd; [exact Hnd|].
    apply IH. now apply increment_keys_NoDup. }
  assert (H2 : forall mc : JsObj.t count, NoDup (JsObj.keys mc) ->
                 NoDup (JsObj.keys (fold_left (fill_count (excluded s u)) K mc))).
  { induction K as [|x K IH]; simpl; intros mc Hnd; [exact Hnd|].
    apply IH. unfold fill_count. destruct (excluded s u x); [exact Hnd|].
    destruct (negb _); [now apply NoDup_keys_set | exact Hnd]. }
  apply H2, H1. constructor.
Qed.

(** An increment and a round of the last loop read and write the one key
    they are about: at a key that is no name of [Object.prototype], the
    tally holds the number that the tally of [Suggestions] holds. *)
Lemma get_increment c x mcj mc :
  ObjectPrototype.inherits c = false ->
  JsObj.get c mcj = option_map Num (JsObj.get c mc) ->
  JsObj.get c (SuggestionsJs.increment x mcj) = option_map Num (JsObj.get c (bump mc x)).
Proof.
  intros Hc Hrel. rewrite get_bump.
  destruct (String.eqb_spec c x) as [<-|Hne].
  - unfold SuggestionsJs.increment. rewrite Hrel, Hc.
    destruct (JsObj.get c mc) as [n|]; simpl; rewrite get_set_same; simpl.
    + destruct (Z.eqb_spec n 0) as [->|_]; reflexivity.
    + reflexivity.
  - rewrite <- Hrel. unfold SuggestionsJs.increment.
    assert (Hset : forall v, JsObj.get c (JsObj.set x v mcj) = JsObj.get c mcj)
      by (intros v; apply get_set_other; congruence).
    destruct (JsObj.get x mcj) as [[n|t]|]; rewrite ?Hset; try reflexivity.
    destruct (ObjectPrototype.inherits x); [|now rewrite Hset].
    destruct (String.eqb x "__proto__"); [reflexivity | now rewrite Hset].
Qed.

Lemma get_fill_count (ex : string -> bool) c x mcj mc :
  ObjectPrototype.inherits c = false ->
  JsObj.get c mcj = option_map Num (JsObj.get c mc) ->
  JsObj.get c (fill_count ex mcj x) = option_map Num (JsObj.get c (fill_step ex mc x)).
Proof.
  intros Hc Hrel. unfold fill_count, fill_step, ObjectPrototype.in_.
  destruct (ex x); [exact Hrel|].
  destruct (String.eqb_spec c x) as [<-|Hne].
  - unfold JsObj.has. rewrite Hrel, Hc.
    destruct (JsObj.get c mc) as [n|] eqn:Hg; simpl.
    + now rewrite Hrel, Hg.
    + now rewrite !get_set_same.
  - destruct (negb (JsObj.has x mcj || ObjectPrototype.inherits x)),
             (negb (JsObj.has x mc));
      rewrite ?get_set_other by congruence; exact Hrel.
Qed.

Lemma get_tally s u c :
  ObjectPrototype.inherits c = false ->
  JsObj.get c (tally s u) = option_map Num (JsObj.get c (mutualCounts s u)).
Proof.
  intros Hc. unfold tally, mutualCounts.
  set (l := flat_map _ _). set (K := JsObj.keys (users s)).
  assert (H1 : forall mcj mc,
             JsObj.get c mcj = option_map Num (JsObj.get c mc) ->
             JsObj.get c (fold_left (fun mc c => SuggestionsJs.increment c mc) l mcj)
             = option_map Num (JsObj.get c (fold_left bump l mc))).
  { induction l as [|x l IH]; simpl; intros mcj mc Hrel; [exact Hrel|].
    apply IH. now apply get_increment. }
  assert (H2 : forall mcj mc,
             JsObj.get c mcj = option_map Num (JsObj.get c mc) ->
             JsObj.get c (fold_left (fill_count (excluded s u)) K mcj)
             = option_map Num (JsObj.get c (fold_left (fill_step (excluded s u)) K mc))).
  { induction K as [|x K IH]; simpl; intros mcj mc Hrel; [exact Hrel|].
    apply IH. now apply get_fill_count. }
  apply H2, H1. reflexivity.
Qed.

(** The tally of [Suggestions], from the follow edges alone. *)
Lemma mutualCounts_get_edges s u c :
  NoDup (follows s) ->
  JsObj.get c (mutualCounts s u)
  = if excluded s u c then None
    else if JsObj.has c (users s) || negb (Nat.eqb (paths2 s u c) 0)
         then Some (Z.of_nat (paths2 s u c)) else None.
Proof.
  intros Hnd. unfold mutualCounts. rewrite fill_fold_get, bump_fold_get.
  rewrite occ_candidates by exact Hnd.
  rewrite existsb_eqb_keys. simpl.
  destruct (excluded s u c) eqn:Hex; simpl.
  - now rewrite andb_false_r.
  - rewrite andb_true_r.
    destruct (paths2 s u c) as [|n]; simpl.
    + now destruct (JsObj.has c (users s)).
    + now rewrite orb_true_r.
Qed.

Lemma tally_inner_count (excluded : string -> bool) (l : list Follow) : forall mc,
  fold_left (fun (mc : JsObj.t count) f =>
               if excluded (followeeId f) then mc
               else SuggestionsJs.increment (followeeId f) mc) l mc
  = fold_left (fun mc c => SuggestionsJs.increment c mc)
              (filter (fun c => negb (excluded c)) (map followeeId l)) mc.
Proof.
  induction l as [|f l IH]; simpl; intros mc; [reflexivity|].
  rewrite IH. now destruct (excluded (followeeId f)).
Qed.

Lemma tally_outer_count (excluded : string -> bool) (s : storage) (A : list string) :
  forall mc,
  fold_left
    (fun (mc : JsObj.t count) fid =>
       fold_left (fun (mc : JsObj.t count) f =>
                    if excluded (followeeId f) then mc
                    else SuggestionsJs.increment (followeeId f) mc)
                 (filter (fun f => String.eqb (followerId f) fid) (follows s)) mc)
    A mc
  = fold_left (fun mc c => SuggestionsJs.increment c mc)
      (flat_map (fun fid => filter (fun c => negb (excluded c)) (followeesOf s fid)) A)
      mc.
Proof.
  induction A as [|fid A IH]; simpl; intros mc; [reflexivity|].
  now rewrite fold_left_app, IH, tally_inner_count.
Qed.

Lemma SuggestionsJs_unfold u s :
  SuggestionsJs.computeSuggestions u s
  = map (fun e => (JsObj.get (fst e) (users s), snd e))
        (JsArray.sort SuggestionsJs.compare (tally s u)).
Proof.
  unfold SuggestionsJs.computeSuggestions, tally, JsObj.entries.
  do 3 f_equal.
  apply (tally_outer_count (excluded s u) s).
Qed.

(** The entries of the answer that stand for a user [c] of the store. *)
Lemma SuggestionsJs_entry s u c x :
  graph_ok s ->
  JsObj.has c (users s) = true ->
  (In x (SuggestionsJs.computeSuggestions u s) /\ option_map User.id (fst x) = Some c
   <-> exists usr n,
         x = (Some usr, Num n) /\ JsObj.get c (users s) = Some usr
         /\ JsObj.get c (mutualCounts s u) = Some n).
Proof.
  intros [Hnd Hkeys] Hc. rewrite SuggestionsJs_unfold.
  pose proof (sort_Permutation SuggestionsJs.compare (tally s u)) as Hperm.
  apply has_get in Hc as [usr Husr].
  destruct (Hkeys c usr Husr) as (_ & _ & Hplain).
  split.
  - intros [Hin Hid]. apply in_map_iff in Hin as [[k v] [<- Hin]]. simpl in *.
    destruct (JsObj.get k (users s)) as [usr'|] eqn:Hk; [|discriminate].
    simpl in Hid. injection Hid as Hid.
    destruct (Hkeys k usr' Hk) as (Hid' & _). rewrite Hid in Hid'. subst k.
    apply (Permutation_in _ (Permutation_sym Hperm)) in Hin.
    apply (In_get _ _ _ (tally_NoDup s u)) in Hin.
    rewrite (get_tally s u c Hplain) in Hin.
    destruct (JsObj.get c (mutualCounts s u)) as [n|]; [|discriminate].
    injection Hin as <-. exists usr', n. rewrite Husr in Hk. injection Hk as ->. auto.
  - intros (usr' & n & -> & Hg & Hn). rewrite Husr in Hg. injection Hg as <-.
    split.
    + apply in_map_iff. exists (c, Num n). simpl. rewrite Husr. split; [reflexivity|].
      apply (Permutation_in _ Hperm). apply get_In.
      rewrite (get_tally s u c Hplain), Hn. reflexivity.
    + simpl. f_equal. apply (Hkeys c usr Husr).
Qed.

Lemma store_ok_graph_ok s : store_ok s -> plain_ids s -> graph_ok s.
Proof.
  intros Hok [_ Hplain]. split; [exact (follows_NoDup s (ok_follows s Hok))|].
  intros k usr Hk.
  assert (Hhas : JsObj.has k (users s) = true) by (apply has_get; eauto).
  split; [now apply (ok_users_id s Hok)|].
  split; [now apply (ok_users_truthy s Hok)|].
  now apply Hplain, has_keys.
Qed.

Lemma reachable_graph_ok s : reachable s -> graph_ok s.
Proof.
  intros Hr. apply store_ok_graph_ok; [now apply reachable_ok|].
  now apply reachable_plain_ids.
Qed.

Lemma FollowsJs_post_success a b s :
  a <> "" -> b <> "" -> a <> b ->
  JsObj.has a (users s) = true -> JsObj.has b (users s) = true ->
  edge s a b = false ->
  FollowsJs.post a b s
  = (mkStorage (users s) (posts s) (follows s ++ [mkFollow a b])%list (likes s),
     mkResponse 201 (FollowJson (mkFollow a b))).
Proof.
  intros Ha Hb Hab Hua Hub He.
  rewrite (FollowsJs_post_users a b s Hua Hub). now apply Follows_post_success.
Qed.

(** C2.  In a store where no follow edge occurs twice and every user is
    filed under its own id, as in every reachable store: for a user [u]
    and a user [c] of the store other than [u] that [u] does not follow, the
    entry of [c] in the suggestions of [u] carries the number of followees
    [f] of [u] such that the edge [(f, c)] exists, the followees being
    counted once each.  In particular, when [u] follows [b], [b] follows [c]
    and no other followee of [u] follows [c], the count is 1 (with two such
    followees it is 2, as for bob and dave in the seeded store); and once
    [u] follows [c], which the follow route accepts, the suggestions of [u]
    have no entry for [c]. *)
Theorem mutual_count_counts_paths (s : storage) (u c : string) :
  graph_ok s ->
  JsObj.has u (users s) = true ->
  JsObj.has c (users s) = true ->
  c <> u ->
  ~ In (mkFollow u c) (follows s) ->
  (exists x, In x (SuggestionsJs.computeSuggestions u s)
             /\ option_map User.id (fst x) = Some c
             /\ snd x
                = Num (Z.of_nat (length (filter (fun f => edge s f c) (followeesOf s u)))))
  /\ (forall x, In x (SuggestionsJs.computeSuggestions u s) ->
                option_map User.id (fst x) = Some c ->
                snd x
                = Num (Z.of_nat (length (filter (fun f => edge s f c) (followeesOf s u)))))
  /\ NoDup (followeesOf s u)
  /\ (forall f, In f (followeesOf s u) <-> In (mkFollow u f) (follows s))
  /\ (forall b, In (mkFollow u b) (follows s) -> In (mkFollow b c) (follows s) ->
        (forall b', In (mkFollow u b') (follows s) -> In (mkFollow b' c) (follows s) ->
                    b' = b) ->
        length (filter (fun f => edge s f c) (followeesOf s u)) = 1%nat)
  /\ (status (snd (FollowsJs.post u c s)) = 201%nat
      /\ forall x, In x (SuggestionsJs.computeSuggestions u (fst (FollowsJs.post u c s))) ->
                   option_map User.id (fst x) <> Some c).
Proof.
  intros Hg Hu Hc Hne Hedge. pose proof Hg as [Hfnd Hkeys].
  pose proof (followeesOf_NoDup s u Hfnd) as Hnd.
  apply edge_false in Hedge.
  assert (Hex : excluded s u c = false) by (apply excluded_false; auto).
  assert (Hn : JsObj.get c (mutualCounts s u) = Some (Z.of_nat (paths2 s u c))).
  { rewrite (mutualCounts_get_edges s u c Hfnd), Hex, Hc. reflexivity. }
  split; [|split; [|split; [exact Hnd|split; [|split]]]].
  - destruct (proj1 (has_get _ _) Hc) as [usr Husr].
    exists (Some usr, Num (Z.of_nat (paths2 s u c))).
    destruct (proj2 (SuggestionsJs_entry s u c
                       (Some usr, Num (Z.of_nat (paths2 s u c))) Hg Hc)) as [Hin Hid].
    { exists usr, (Z.of_nat (paths2 s u c)). auto. }
    auto.
  - intros x Hx Hid.
    destruct (proj1 (SuggestionsJs_entry s u c x Hg Hc) (conj Hx Hid))
      as (usr & n & -> & _ & Hn').
    rewrite Hn in Hn'. injection Hn' as <-. reflexivity.
  - intros f. apply followeesOf_In.
  - intros b Hub Hbc Honly.
    assert (Hfilter : forall f, In f (filter (fun f => edge s f c) (followeesOf s u))
                                <-> f = b).
    { intros f. rewrite filter_In, followeesOf_In, edge_In. split.
      - intros [H1 H2]. now apply Honly.
      - intros ->. auto. }
    pose proof (NoDup_filter (fun f => edge s f c) Hnd) as Hnd'.
    destruct (filter (fun f => edge s f c) (followeesOf s u)) as [|f1 [|f2 l]].
    + exfalso. apply (proj2 (Hfilter b) eq_refl).
    + reflexivity.
    + exfalso. inversion_clear Hnd' as [|? ? Hnotin _]. apply Hnotin.
      rewrite (proj1 (Hfilter f1) (or_introl eq_refl)).
      rewrite <- (proj1 (Hfilter f2) (or_intror (or_introl eq_refl))). now left.
  - destruct (proj1 (has_get _ _) Hu) as [usr_u Husr_u].
    destruct (proj1 (has_get _ _) Hc) as [usr_c Husr_c].
    destruct (Hkeys u usr_u Husr_u) as (_ & Hu0 & _).
    destruct (Hkeys c usr_c Husr_c) as (_ & Hc0 & _).
    rewrite (FollowsJs_post_success u c s); auto.
    simpl. split; [reflexivity|].
    set (s' := mkStorage (users s) (posts s) (follows s ++ [mkFollow u c])%list (likes s)).
    assert (Hg' : graph_ok s').
    { split; [|exact Hkeys]. simpl. apply NoDup_snoc; [exact Hfnd|].
      now apply edge_false. }
    intros x Hx Hid.
    destruct (proj1 (SuggestionsJs_entry s' u c x Hg' Hc) (conj Hx Hid))
      as (usr & n & _ & _ & Hn').
    rewrite (mutualCounts_get_edges s' u c (proj1 Hg')) in Hn'.
    assert (Hex' : excluded s' u c = true).
    { destruct (excluded s' u c) eqn:E; [reflexivity|].
      apply excluded_false in E as [_ E]. apply edge_false in E.
      exfalso. apply E. simpl. apply in_app_iff. right. now left. }
    rewrite Hex' in Hn'. discriminate.
Qed.

Lemma mutual_count_counts_paths_witness :
  (exists x, In x (SuggestionsJs.computeSuggestions Scenario.A Scenario.store)
             /\ option_map User.id (fst x) = Some Scenario.C
             /\ snd x = Num 1)
  /\ forall x,
       In x (SuggestionsJs.computeSuggestions Scenario.A
               (fst (FollowsJs.post Scenario.A Scenario.C Scenario.store))) ->
       option_map User.id (fst x) <> Some Scenario.C.
Proof.
  assert (Hg : graph_ok Scenario.store) by exact (reachable_graph_ok _ Scenario_reachable).
  assert (Hu : JsObj.has Scenario.A (users Scenario.store) = true)
    by (vm_compute; reflexivity).
  assert (Hc : JsObj.has Scenario.C (users Scenario.store) = true)
    by (vm_compute; reflexivity).
  assert (Hne : Scenario.C <> Scenario.A) by discriminate.
  assert (Hedge : ~ In (mkFollow Scenario.A Scenario.C) (follows Scenario.store)).
  { apply edge_false. vm_compute. reflexivity. }
  destruct (mutual_count_counts_paths Scenario.store Scenario.A Scenario.C
              Hg Hu Hc Hne Hedge)
    as ((x & Hx & Hid & Hn) & _ & _ & _ & _ & _ & Hafter).
  split; [|exact Hafter].
  exists x. split; [exact Hx|]. split; [exact Hid|]. rewrite Hn.
  vm_compute. reflexivity.
Defined.

(** In the seeded store bob follows alice and carol, who both follow dave,
    and bob does not follow dave: the suggestions of bob list dave with a
    mutual count of 2, not 1. *)
Lemma two_intermediaries_count_two :
  let s := seed 0 storage_init in
  reachable s
  /\ JsObj.has SEED_IDS.bob (users s) = true
  /\ In (mkFollow SEED_IDS.bob SEED_IDS.alice) (follows s)
  /\ In (mkFollow SEED_IDS.alice SEED_IDS.dave) (follows s)
  /\ ~ In (mkFollow SEED_IDS.bob SEED_IDS.dave) (follows s)
  /\ map (fun x => (option_map User.id (fst x), snd x))
         (SuggestionsJs.computeSuggestions SEED_IDS.bob s)
     = [(Some SEED_IDS.dave, Num 2); (Some SEED_IDS.eve, Num 0);
        (Some SEED_IDS.frank, Num 0)]
  /\ ~ (exists x, In x (SuggestionsJs.computeSuggestions SEED_IDS.bob s)
                  /\ option_map User.id (fst x) = Some SEED_IDS.dave
                  /\ snd x = Num 1).
Proof.
  cbv zeta. split; [apply reachable_seed|].
  split; [vm_compute; reflexivity|].
  split; [apply edge_In; vm_compute; reflexivity|].
  split; [apply edge_In; vm_compute; reflexivity|].
  split; [apply edge_false; vm_compute; reflexivity|].
  assert (H : map (fun x => (option_map User.id (fst x), snd x))
                  (SuggestionsJs.computeSuggestions SEED_IDS.bob (seed 0 storage_init))
              = [(Some SEED_IDS.dave, Num 2); (Some SEED_IDS.eve, Num 0);
                 (Some SEED_IDS.frank, Num 0)])
    by (vm_compute; reflexivity).
  split; [exact H|].
  intros (x & Hx & Hid & Hn).
  apply (in_map (fun x => (option_map User.id (fst x), snd x))) in Hx.
  rewrite H, Hid, Hn in Hx. simpl in Hx.
  destruct Hx as [Hx|[Hx|[Hx|[]]]]; discriminate.
Qed.

(** * Further properties of the routes *)

(** ** Like edges and user names *)

Lemma set_fresh {V} k (v : V) o :
  JsObj.has k o = false -> JsObj.set k v o = (o ++ [(k, v)])%list.
Proof.
  unfold JsObj.has. induction o as [|[k' v'] o IH]; simpl; [reflexivity|].
  destruct (String.eqb_spec k' k) as [->|Hne]; [discriminate|].
  intros H. now rewrite IH.
Qed.

Lemma values_set_fresh {V} k (v : V) o :
  JsObj.has k o = false -> JsObj.values (JsObj.set k v o) = (JsObj.values o ++ [v])%list.
Proof.
  intros H. rewrite (set_fresh k v o H). unfold JsObj.values. now rewrite map_app.
Qed.







Lemma UsersJs_post_effect (trim toLowerCase : string -> string)
    uuid now username displayName bio pic s :
  (UsersJs.post trim toLowerCase uuid now username displayName bio pic s
   = (s, snd (UsersJs.post trim toLowerCase uuid now username displayName bio pic s))
   /\ status (snd (UsersJs.post trim toLowerCase uuid now username displayName bio pic s))
      = 400%nat)
  \/ (exists user,
        UsersJs.post trim toLowerCase uuid now username displayName bio pic s
        = (mkStorage (JsObj.set uuid user (users s)) (posts s) (follows s) (likes s),
           mkResponse 201 (UserJson user))
        /\ User.id user = uuid
        /\ User.username user = trim username
        /\ User.displayName user = trim displayName
        /\ User.createdAt user = now
        /\ existsb (fun u => String.eqb (toLowerCase (User.username u))
                                        (toLowerCase (trim username)))
                   (JsObj.values (users s)) = false).
Proof.
  unfold UsersJs.post, JsArray.some.
  destruct (truthy username); simpl; [|left; auto].
  destruct (String.eqb (trim username) ""); [left; auto|].
  destruct (truthy displayName); simpl; [|left; auto].
  destruct (String.eqb (trim displayName) ""); [left; auto|].
  destruct (existsb _ _) eqn:Hex; [left; auto|].
  right. eexists. split; [reflexivity|]. simpl. auto 10.
Qed.

(** With the ASCII methods of [JsString] for parameters, the route is the
    one of [Users]. *)
Lemma UsersJs_post_ascii uuid now username displayName bio pic s :
  UsersJs.post JsString.trim JsString.toLowerCase uuid now username displayName bio pic s
  = Users.post uuid now username displayName bio pic s.
Proof. reflexivity. Qed.

Lemma seed_usernames now :
  map User.username (JsObj.values (users (seed now storage_init)))
  = ["alice"; "bob"; "carol"; "dave"; "eve"; "frank"].
Proof. vm_compute. reflexivity. Qed.

Lemma lowered_unique (toLowerCase : string -> string) (o : JsObj.t User.t) k1 k2 u1 u2 :
  NoDup (UsersJs.lowered toLowerCase o) ->
  In (k1, u1) o -> In (k2, u2) o ->
  toLowerCase (User.username u1) = toLowerCase (User.username u2) ->
  (k1, u1) = (k2, u2).
Proof.
  unfold UsersJs.lowered, JsObj.values. rewrite map_map. intros Hnd H1 H2 Heq.
  induction o as [|[k u] o IH]; simpl in *; [tauto|].
  inversion_clear Hnd as [|? ? Hnotin Hnd'].
  destruct H1 as [H1|H1], H2 as [H2|H2].
  - congruence.
  - exfalso. apply Hnotin. injection H1 as -> ->. rewrite Heq.
    exact (in_map (fun e => toLowerCase (User.username (snd e))) _ _ H2).
  - exfalso. apply Hnotin. injection H2 as -> ->. rewrite <- Heq.
    exact (in_map (fun e => toLowerCase (User.username (snd e))) _ _ H1).
  - now apply IH.
Qed.

Lemma UsersJs_post_lowered (trim toLowerCase : string -> string)
    uuid now username displayName bio pic s :
  JsObj.has uuid (users s) = false ->
  NoDup (UsersJs.lowered toLowerCase (users s)) ->
  NoDup (UsersJs.lowered toLowerCase
           (users (fst (UsersJs.post trim toLowerCase uuid now username displayName
                                     bio pic s)))).
Proof.
  intros Hfresh Hnd.
  destruct (UsersJs_post_effect trim toLowerCase uuid now username displayName bio pic s)
    as [[He _]|(usr & He & _ & Hname & _ & _ & Hex)]; rewrite He; simpl; [exact Hnd|].
  unfold UsersJs.lowered.
  rewrite (values_set_fresh uuid usr (users s) Hfresh), map_app. simpl.
  apply NoDup_snoc; [exact Hnd|].
  intros Hin. apply in_map_iff in Hin as [u0 [Hu0 Hin]].
  apply not_true_iff_false in Hex. apply Hex.
  apply existsb_exists. exists u0. split; [exact Hin|].
  rewrite Hu0, Hname. apply String.eqb_refl.
Qed.

(** X2.  Whatever [trim] and [toLowerCase] do, provided the six seed names
    stay distinct under [toLowerCase]: in every state of [storage.users] no
    two users have the same user name under [toLowerCase], the comparison of
    the registration route, and a registration leads to a state where this
    holds again. *)
Theorem usernames_unique_up_to_case
    (trim toLowerCase : string -> string) (o : JsObj.t User.t) :
  NoDup (map toLowerCase ["alice"; "bob"; "carol"; "dave"; "eve"; "frank"]) ->
  UsersJs.reachable_users trim toLowerCase o ->
  NoDup (UsersJs.lowered toLowerCase o)
  /\ (forall k1 k2 u1 u2,
        JsObj.get k1 o = Some u1 -> JsObj.get k2 o = Some u2 ->
        toLowerCase (User.username u1) = toLowerCase (User.username u2) ->
        k1 = k2 /\ u1 = u2)
  /\ (forall uuid now username displayName bio pic s,
        users s = o -> JsObj.has uuid o = false ->
        NoDup (UsersJs.lowered toLowerCase
                 (users (fst (UsersJs.post trim toLowerCase uuid now username
                                           displayName bio pic s))))).
Proof.
  intros Hseed Hr.
  assert (Hnd : NoDup (UsersJs.lowered toLowerCase o)).
  { induction Hr as [|now|uuid now un dn bio pic s Hr IH Hfresh].
    - constructor.
    - unfold UsersJs.lowered.
      rewrite <- (map_map User.username toLowerCase), seed_usernames. exact Hseed.
    - now apply UsersJs_post_lowered. }
  split; [exact Hnd|]. split.
  - intros k1 k2 u1 u2 H1 H2 Heq. apply get_In in H1, H2.
    pose proof (lowered_unique toLowerCase o k1 k2 u1 u2 Hnd H1 H2 Heq) as H.
    injection H as -> ->. auto.
  - intros uuid now un dn bio pic s <- Hfresh. now apply UsersJs_post_lowered.
Qed.

Lemma usernames_unique_up_to_case_witness :
  NoDup (UsersJs.lowered JsString.toLowerCase
           (users (fst (UsersJs.post JsString.trim JsString.toLowerCase
                          "00000000-0000-4000-8000-0000000000aa" 5
                          "Grace" "Grace Hopper" "" "" (seed 0 storage_init))))).
Proof.
  assert (Hseed : NoDup (map JsString.toLowerCase
                             ["alice"; "bob"; "carol"; "dave"; "eve"; "frank"])).
  { apply (distinct_NoDup String.eqb _ String.eqb_eq). vm_compute. reflexivity. }
  assert (Hfresh : JsObj.has "00000000-0000-4000-8000-0000000000aa"
                             (users (seed 0 storage_init)) = false)
    by (vm_compute; reflexivity).
  refine (proj1 (usernames_unique_up_to_case JsString.trim JsString.toLowerCase _
                   Hseed _)).
  exact (UsersJs.users_post JsString.trim JsString.toLowerCase
           "00000000-0000-4000-8000-0000000000aa" 5 "Grace" "Grace Hopper" "" ""
           (seed 0 storage_init)
           (UsersJs.users_seed JsString.trim JsString.toLowerCase 0) Hfresh).
Defined.

(** X3.  Whatever [trim] and [toLowerCase] do: once a user is registered, a
    registration with a user name and a display name that are not blank,
    whose trimmed user name is the same under [toLowerCase], is refused with
    the 400 of a taken user name, and the store is not changed. *)
Theorem duplicate_username_rejected
    (trim toLowerCase : string -> string)
    (s : storage) (uuid uuid' : string) (now now' : Z)
    (username displayName bio pic username' displayName' bio' pic' : string) :
  status (snd (UsersJs.post trim toLowerCase uuid now username displayName bio pic s))
  = 201%nat ->
  username' <> "" -> trim username' <> "" ->
  displayName' <> "" -> trim displayName' <> "" ->
  toLowerCase (trim username') = toLowerCase (trim username) ->
  let s1 := fst (UsersJs.post trim toLowerCase uuid now username displayName bio pic s) in
  UsersJs.post trim toLowerCase uuid' now' username' displayName' bio' pic' s1
  = (s1, mkResponse 400 (Error "username already taken")).
Proof.
  intros Hok Hu Htu Hd Htd Hsame.
  destruct (UsersJs_post_effect trim toLowerCase uuid now username displayName bio pic s)
    as [[_ Hs]|(usr & He & Hid & Hname & _)]; [congruence|].
  rewrite He. simpl. unfold UsersJs.post, JsArray.some. simpl.
  apply truthy_true in Hu, Hd. rewrite Hu, Hd. simpl.
  apply String.eqb_neq in Htu, Htd. rewrite Htu, Htd.
  replace (existsb _ _) with true; [reflexivity|].
  symmetry. apply existsb_exists. exists usr. split.
  - apply (in_map snd _ (uuid, usr)), get_In, get_set_same.
  - rewrite Hname, Hsame. apply String.eqb_refl.
Qed.

Lemma duplicate_username_rejected_witness :
  UsersJs.post JsString.trim JsString.toLowerCase
    "00000000-0000-4000-8000-0000000000a2" 2 "ALICE" "Second" "" ""
    (fst (UsersJs.post JsString.trim JsString.toLowerCase
            "00000000-0000-4000-8000-0000000000a1" 1 "Alice" "First" "" ""
            storage_init))
  = (fst (UsersJs.post JsString.trim JsString.toLowerCase
            "00000000-0000-4000-8000-0000000000a1" 1 "Alice" "First" "" ""
            storage_init),
     mkResponse 400 (Error "username already taken")).
Proof.
  apply (duplicate_username_rejected JsString.trim JsString.toLowerCase storage_init
           "00000000-0000-4000-8000-0000000000a1"
           "00000000-0000-4000-8000-0000000000a2" 1 2
           "Alice" "First" "" "" "ALICE" "Second" "" "").
  - vm_compute. reflexivity.
  - discriminate.
  - vm_compute. discriminate.
  - discriminate.
  - vm_compute. discriminate.
  - vm_compute. reflexivity.
Defined.




(** ** The likers of a post *)





(** ** Failed like and unlike requests *)




(** ** Deleting a post *)

(** X7.  Deleting an existing post answers 204 and removes the post and
    every like edge on it, and nothing else: afterwards the post and its
    likers are not found, a second delete is a 404, and the other posts,
    their like edges, the users and the follow edges are as before. *)
Theorem delete_post_cascade (s : storage) (id : string) :
  JsObj.has id (posts s) = true ->
  let s' := fst (Posts.delete id s) in
  snd (Posts.delete id s) = mkResponse 204 NoContent
  /\ (forall l, In l (likes s') -> postId l <> id)
  /\ likesOf s' id = []
  /\ PostsRead.get_id id s' = ReplyError 404 "post not found"
  /\ PostsRead.get_likes id s' = mkResponse 404 (Error "post not found")
  /\ LikesRead.get id s' = mkResponse 404 (Error "post not found")
  /\ Posts.delete id s' = (s', mkResponse 404 (Error "post not found"))
  /\ (forall k, k <> id ->
        JsObj.get k (posts s') = JsObj.get k (posts s)
        /\ likesOf s' k = likesOf s k)
  /\ users s' = users s
  /\ follows s' = follows s.
Proof.
  intros Hid.
  destruct (Posts_delete_effect id s) as [[Hnone _]|[_ He]].
  { apply has_get in Hid as [v Hv]. congruence. }
  cbv zeta. rewrite He. simpl.
  assert (Hgone : JsObj.get id (JsObj.delete id (posts s)) = None).
  { now rewrite get_delete, String.eqb_refl. }
  assert (Hlikes : forall l,
             In l (filter (fun l => negb (String.eqb (postId l) id)) (likes s)) ->
             postId l <> id).
  { intros l Hl. apply filter_In in Hl as [_ Hne].
    now apply negb_true_iff, String.eqb_neq in Hne. }
  split; [reflexivity|]. split; [exact Hlikes|]. split.
  { unfold likesOf. simpl. apply filter_none. intros l Hl.
    apply String.eqb_neq. now apply Hlikes. }
  unfold PostsRead.get_id, PostsRead.get_likes, LikesRead.get, Posts.delete, JsObj.has.
  simpl. rewrite Hgone. simpl. repeat split.
  - rewrite get_delete. destruct (String.eqb_spec id k); [congruence | reflexivity].
  - unfold likesOf. simpl. now apply filter_filter_other.
Qed.

Lemma delete_post_cascade_witness :
  likesOf (fst (Posts.delete SEED_IDS.p1 (seed 0 storage_init))) SEED_IDS.p1 = []
  /\ PostsRead.get_likes SEED_IDS.p1 (fst (Posts.delete SEED_IDS.p1 (seed 0 storage_init)))
     = mkResponse 404 (Error "post not found").
Proof.
  assert (Hp : JsObj.has SEED_IDS.p1 (posts (seed 0 storage_init)) = true)
    by (vm_compute; reflexivity).
  pose proof (delete_post_cascade (seed 0 storage_init) SEED_IDS.p1 Hp) as H.
  cbv zeta in H. destruct H as (_ & _ & H1 & _ & H2 & _). auto.
Defined.

(** ** Follow, unfollow and what the read routes show *)

(** X9.  Between two distinct existing users without a follow edge, the
    follow request succeeds, and the unfollow request that comes next
    succeeds and gives back the store as it was before the follow. *)
Theorem follow_unfollow_roundtrip (s : storage) (a b : string) :
  a <> "" -> b <> "" -> a <> b ->
  JsObj.has a (users s) = true -> JsObj.has b (users s) = true ->
  ~ In (mkFollow a b) (follows s) ->
  snd (Follows.post a b s) = mkResponse 201 (FollowJson (mkFollow a b))
  /\ In (mkFollow a b) (follows (fst (Follows.post a b s)))
  /\ Follows.delete a b (fst (Follows.post a b s))
     = (s, mkResponse 200 (Message "unfollowed successfully")).
Proof.
  intros Ha Hb Hab Hua Hub He. apply edge_false in He.
  rewrite (Follows_post_success a b s Ha Hb Hab Hua Hub He). simpl.
  split; [reflexivity|]. split; [apply in_app_iff; right; now left|].
  unfold Follows.delete. simpl.
  apply truthy_true in Ha, Hb. rewrite Ha, Hb. simpl.
  destruct (findIndex_snoc_new (Follows.same_edge a b) (follows s) (mkFollow a b) He)
    as [-> ->]; [now apply same_edge_true|].
  now destruct s.
Qed.

Lemma follow_unfollow_roundtrip_witness :
  Follows.delete SEED_IDS.frank SEED_IDS.alice
    (fst (Follows.post SEED_IDS.frank SEED_IDS.alice (seed 0 storage_init)))
  = (seed 0 storage_init, mkResponse 200 (Message "unfollowed successfully")).
Proof.
  assert (Ha : SEED_IDS.frank <> "") by discriminate.
  assert (Hb : SEED_IDS.alice <> "") by discriminate.
  assert (Hab : SEED_IDS.frank <> SEED_IDS.alice) by discriminate.
  assert (Hua : JsObj.has SEED_IDS.frank (users (seed 0 storage_init)) = true)
    by (vm_compute; reflexivity).
  assert (Hub : JsObj.has SEED_IDS.alice (users (seed 0 storage_init)) = true)
    by (vm_compute; reflexivity).
  assert (He : ~ In (mkFollow SEED_IDS.frank SEED_IDS.alice)
                    (follows (seed 0 storage_init)))
    by (apply edge_false; vm_compute; reflexivity).
  exact (proj2 (proj2 (follow_unfollow_roundtrip _ _ _ Ha Hb Hab Hua Hub He))).
Defined.





Lemma Feed_get_member s u :
  JsObj.has u (users s) = true ->
  exists items,
    Feed.get u s = mkResponse 200 (FeedJson items)
    /\ forall p, In p (map post items)
                 <-> In p (JsObj.values (posts s))
                     /\ In (mkFollow u (Post.authorId p)) (follows s).
Proof.
  intros Hu. unfold Feed.get. rewrite Hu. simpl. fold (followeesOf s u).
  eexists. split; [reflexivity|]. intros p.
  rewrite map_map. simpl. rewrite map_id.
  split.
  - intros Hp.
    apply (Permutation_in _ (Permutation_sym (sort_Permutation _ _))) in Hp.
    apply filter_In in Hp as [Hp He].
    rewrite followee_set_has in He. now apply edge_In in He.
  - intros [Hp He]. apply (Permutation_in _ (sort_Permutation _ _)).
    apply filter_In. split; [exact Hp|].
    rewrite followee_set_has. now apply edge_In.
Qed.

Lemma followeesOf_snoc_other s a b c :
  c <> a ->
  map followeeId
      (filter (fun f => String.eqb (followerId f) c) (follows s ++ [mkFollow a b]))
  = followeesOf s c.
Proof.
  intros Hne. rewrite filter_app. simpl.
  destruct (String.eqb_spec a c); [congruence|]. now rewrite app_nil_r.
Qed.

(** X11.  Between two distinct existing users [a] and [b] without a follow
    edge, no post of [b] is in the feed of [a]; after the follow the feed of
    [a] holds what it held and every post of [b]; the feed of every other
    user is the same before and after. *)
Theorem feed_after_follow (s : storage) (a b : string) :
  a <> "" -> b <> "" -> a <> b ->
  JsObj.has a (users s) = true -> JsObj.has b (users s) = true ->
  ~ In (mkFollow a b) (follows s) ->
  let s1 := fst (Follows.post a b s) in
  exists before after,
    Feed.get a s = mkResponse 200 (FeedJson before)
    /\ Feed.get a s1 = mkResponse 200 (FeedJson after)
    /\ (forall p, In p (map post before) -> Post.authorId p <> b)
    /\ (forall p, In p (map post after)
                  <-> In p (map post before)
                      \/ (In p (JsObj.values (posts s)) /\ Post.authorId p = b))
    /\ (forall c, c <> a -> Feed.get c s1 = Feed.get c s).
Proof.
  intros Ha Hb Hab Hua Hub He. pose proof He as He'. apply edge_false in He'.
  cbv zeta. rewrite (Follows_post_success a b s Ha Hb Hab Hua Hub He'). simpl.
  set (s1 := mkStorage (users s) (posts s) (follows s ++ [mkFollow a b])%list (likes s)).
  destruct (Feed_get_member s a Hua) as (before & Hbefore & Hin).
  destruct (Feed_get_member s1 a Hua) as (after & Hafter & Hin1).
  exists before, after. split; [exact Hbefore|]. split; [exact Hafter|].
  split; [|split].
  - intros p Hp Hauth. apply Hin in Hp as [_ Hp]. rewrite Hauth in Hp. contradiction.
  - intros p. rewrite Hin1, Hin. simpl. rewrite in_app_iff. simpl. split.
    + intros [Hp [Hf|[Hf|[]]]]; [left; auto|]. injection Hf as Hf. right. auto.
    + intros [[Hp Hf]|[Hp Hauth]]; [auto|]. split; [exact Hp|].
      right. left. now rewrite Hauth.
  - intros c Hc. unfold Feed.get. simpl.
    now rewrite (followeesOf_snoc_other s a b c Hc).
Qed.

Lemma feed_after_follow_witness :
  Feed.get SEED_IDS.bob
    (fst (Follows.post SEED_IDS.frank SEED_IDS.alice (seed 0 storage_init)))
  = Feed.get SEED_IDS.bob (seed 0 storage_init).
Proof.
  assert (Ha : SEED_IDS.frank <> "") by discriminate.
  assert (Hb : SEED_IDS.alice <> "") by discriminate.
  assert (Hab : SEED_IDS.frank <> SEED_IDS.alice) by discriminate.
  assert (Hua : JsObj.has SEED_IDS.frank (users (seed 0 storage_init)) = true)
    by (vm_compute; reflexivity).
  assert (Hub : JsObj.has SEED_IDS.alice (users (seed 0 storage_init)) = true)
    by (vm_compute; reflexivity).
  assert (He : ~ In (mkFollow SEED_IDS.frank SEED_IDS.alice)
                    (follows (seed 0 storage_init)))
    by (apply edge_false; vm_compute; reflexivity).
  assert (Hc : SEED_IDS.bob <> SEED_IDS.frank) by discriminate.
  pose proof (feed_after_follow _ _ _ Ha Hb Hab Hua Hub He) as H. cbv zeta in H.
  destruct H as (before & after & _ & _ & _ & _ & H).
  exact (H _ Hc).
Defined.

(** ** Lists of posts *)

(** X12.  The list of all posts holds every post of the store once, each
    at least as recent as the next; the list of the posts of an existing user
    holds exactly the posts of that user, in the same order, and the post
    count of the profile is its length; for an id that is neither a user of
    the store nor a name of [Object.prototype] the answer is a 404. *)
Theorem post_lists_newest_first (s : storage) (u : string) :
  (exists l,
      PostsRead.get s = Reply 200 l
      /\ Permutation l (JsObj.values (posts s))
      /\ Sorted (fun x y => Post.createdAt x >= Post.createdAt y) l)
  /\ (JsObj.has u (users s) = true ->
      exists l usr fc fg pc,
        UsersList.get_posts u s = Reply 200 l
        /\ Permutation l
             (filter (fun p => String.eqb (Post.authorId p) u) (JsObj.values (posts s)))
        /\ (forall p, In p l <-> In p (JsObj.values (posts s)) /\ Post.authorId p = u)
        /\ Sorted (fun x y => Post.createdAt x >= Post.createdAt y) l
        /\ Users.get_id u s = mkResponse 200 (ProfileJson usr fc fg pc)
        /\ pc = length l)
  /\ (JsObj.has u (users s) = false -> ObjectPrototype.inherits u = false ->
      UsersList.get_posts u s = ReplyError 404 "user not found").
Proof.
  set (cmp := fun a b : Post.t => Post.createdAt b - Post.createdAt a).
  split; [|split].
  - eexists. split; [reflexivity|]. split.
    + symmetry. apply sort_Permutation.
    + apply (sort_Sorted cmp Post.createdAt). reflexivity.
  - intros Hu. apply has_get in Hu as [usr Husr].
    unfold UsersList.get_posts, Users.get_id. rewrite Husr.
    set (mine := filter (fun p => String.eqb (Post.authorId p) u)
                        (JsObj.values (posts s))).
    pose proof (sort_Permutation cmp mine) as Hperm.
    do 5 eexists. split; [reflexivity|]. split; [now symmetry|]. split; [|split; [|split]].
    + intros p. split.
      * intros Hp. apply (Permutation_in _ (Permutation_sym Hperm)) in Hp.
        apply filter_In in Hp as [Hp He]. now apply String.eqb_eq in He.
      * intros [Hp He]. apply (Permutation_in _ Hperm).
        apply filter_In. split; [exact Hp | now apply String.eqb_eq].
    + apply (sort_Sorted cmp Post.createdAt). reflexivity.
    + reflexivity.
    + apply (Permutation_length Hperm).
  - intros Hu _. unfold UsersList.get_posts.
    destruct (JsObj.get u (users s)) eqn:Hg; [|reflexivity].
    assert (JsObj.has u (users s) = true) by (apply has_get; eauto). congruence.
Qed.

Lemma post_lists_newest_first_witness :
  exists l usr fc fg pc,
    UsersList.get_posts SEED_IDS.alice (seed 0 storage_init) = Reply 200 l
    /\ Users.get_id SEED_IDS.alice (seed 0 storage_init)
       = mkResponse 200 (ProfileJson usr fc fg pc)
    /\ pc = length l.
Proof.
  assert (Hu : JsObj.has SEED_IDS.alice (users (seed 0 storage_init)) = true)
    by (vm_compute; reflexivity).
  destruct (proj1 (proj2 (post_lists_newest_first (seed 0 storage_init) SEED_IDS.alice))
              Hu) as (l & usr & fc & fg & pc & H1 & _ & _ & _ & H2 & H3).
  exists l, usr, fc, fg, pc. auto.
Defined.

(** ** Creating a user, creating a post *)

Lemma unused_idb_ok uuid s : unused_idb uuid s = true -> unused_id uuid s.
Proof.
  unfold unused_idb, unused_id. rewrite !andb_true_iff, !negb_true_iff.
  rewrite !forallb_forall. intros [[[[Hu Hp] Hf] Ha] Hl].
  split; [exact Hu|]. split; [exact Hp|]. split; [|split].
  - intros f Hin. apply Hf in Hin.
    rewrite andb_true_iff, !negb_true_iff, !String.eqb_neq in Hin. exact Hin.
  - intros p Hin. apply Ha in Hin.
    now rewrite negb_true_iff, String.eqb_neq in Hin.
  - intros l Hin. apply Hl in Hin.
    rewrite andb_true_iff, !negb_true_iff, !String.eqb_neq in Hin. exact Hin.
Qed.

(** X13.  Whatever [trim] and [toLowerCase] do: a user that has just been
    registered, under an id in use nowhere in the store, carries the trimmed
    names, is listed last by the user list, has a profile with no follower,
    no following and no post, empty follower and following lists, and an
    empty feed. *)
Theorem new_user_profile
    (trim toLowerCase : string -> string)
    (s : storage) (uuid : string) (now : Z) (username displayName bio pic : string) :
  unused_id uuid s ->
  status (snd (UsersJs.post trim toLowerCase uuid now username displayName bio pic s))
  = 201%nat ->
  let s1 := fst (UsersJs.post trim toLowerCase uuid now username displayName bio pic s) in
  exists user,
    snd (UsersJs.post trim toLowerCase uuid now username displayName bio pic s)
    = mkResponse 201 (UserJson user)
    /\ User.id user = uuid
    /\ User.username user = trim username
    /\ User.displayName user = trim displayName
    /\ UsersList.get s1
       = mkResponse 200 (UsersJson (JsObj.values (users s) ++ [user]))
    /\ Users.get_id uuid s1 = mkResponse 200 (ProfileJson user 0 0 0)
    /\ Users.get_followers uuid s1 = mkResponse 200 (UsersJson [])
    /\ Users.get_following uuid s1 = mkResponse 200 (UsersJson [])
    /\ Feed.get uuid s1 = mkResponse 200 (FeedJson []).
Proof.
  intros (Hfresh & _ & Hfol & Hauth & _) Hok.
  destruct (UsersJs_post_effect trim toLowerCase uuid now username displayName bio pic s)
    as [[_ Hs]|(user & He & Hid & Hname & Hdn & _)]; [congruence|].
  cbv zeta. rewrite He. simpl. exists user.
  assert (Hin : filter (fun f => String.eqb (followeeId f) uuid) (follows s) = []).
  { apply filter_none. intros f Hf. apply String.eqb_neq. now apply Hfol. }
  assert (Hout : filter (fun f => String.eqb (followerId f) uuid) (follows s) = []).
  { apply filter_none. intros f Hf. apply String.eqb_neq. now apply Hfol. }
  assert (Hposts : filter (fun p => String.eqb (Post.authorId p) uuid)
                          (JsObj.values (posts s)) = []).
  { apply filter_none. intros p Hp. apply String.eqb_neq. now apply Hauth. }
  repeat split; auto.
  - unfold UsersList.get. simpl. now rewrite (values_set_fresh uuid user _ Hfresh).
  - unfold Users.get_id. simpl. now rewrite get_set_same, Hin, Hout, Hposts.
  - unfold Users.get_followers. simpl.
    now rewrite has_set, String.eqb_refl, Hin.
  - unfold Users.get_following. simpl.
    now rewrite has_set, String.eqb_refl, Hout.
  - unfold Feed.get. simpl. rewrite has_set, String.eqb_refl, Hout. simpl.
    now rewrite filter_none.
Qed.

Lemma new_user_profile_witness :
  Users.get_id "00000000-0000-4000-8000-0000000000aa"
    (fst (UsersJs.post JsString.trim JsString.toLowerCase
            "00000000-0000-4000-8000-0000000000aa" 5
            " Grace " "Grace Hopper" "" "" (seed 0 storage_init)))
  = mkResponse 200
      (ProfileJson
         (User.mk "00000000-0000-4000-8000-0000000000aa" "Grace" "Grace Hopper"
                  "" None 5)
         0 0 0).
Proof.
  assert (Hfresh : unused_id "00000000-0000-4000-8000-0000000000aa"
                             (seed 0 storage_init))
    by (apply unused_idb_ok; vm_compute; reflexivity).
  assert (Hok : status (snd (UsersJs.post JsString.trim JsString.toLowerCase
                               "00000000-0000-4000-8000-0000000000aa" 5
                               " Grace " "Grace Hopper" "" "" (seed 0 storage_init)))
                = 201%nat)
    by (vm_compute; reflexivity).
  pose proof (new_user_profile JsString.trim JsString.toLowerCase
                _ _ _ _ _ _ _ Hfresh Hok) as H.
  cbv zeta in H. destruct H as (user & Hresp & _ & _ & _ & _ & Hprofile & _).
  rewrite Hprofile. f_equal. f_equal.
  assert (Hresp' : snd (UsersJs.post JsString.trim JsString.toLowerCase
                          "00000000-0000-4000-8000-0000000000aa" 5
                          " Grace " "Grace Hopper" "" "" (seed 0 storage_init))
                   = mkResponse 201
                       (UserJson
                          (User.mk "00000000-0000-4000-8000-0000000000aa" "Grace"
                                   "Grace Hopper" "" None 5)))
    by (vm_compute; reflexivity).
  rewrite Hresp' in Hresp. now injection Hresp as <-.
Defined.

Lemma PostsJs_post_effect (trim : string -> string)
    uuid now authorId content mediaType mediaUrl s :
  (PostsJs.post trim uuid now authorId content mediaType mediaUrl s
   = (s, snd (PostsJs.post trim uuid now authorId content mediaType mediaUrl s))
   /\ status (snd (PostsJs.post trim uuid now authorId content mediaType mediaUrl s))
      = 400%nat)
  \/ (exists post,
        PostsJs.post trim uuid now authorId content mediaType mediaUrl s
        = (mkStorage (users s) (JsObj.set uuid post (posts s)) (follows s) (likes s),
           mkResponse 201 (PostJson post))
        /\ Post.id post = uuid
        /\ Post.authorId post = authorId
        /\ Post.content post = trim content
        /\ Post.createdAt post = now
        /\ Post.likesCount post = 0
        /\ ObjectPrototype.truthy_at authorId (users s) = true
        /\ trim content <> ""
        /\ (mediaType = None \/ mediaType = Some "image" \/ mediaType = Some "video")
        /\ Post.mediaType post = mediaType).
Proof.
  unfold PostsJs.post.
  destruct (truthy authorId); simpl; [|left; auto].
  destruct (ObjectPrototype.truthy_at authorId (users s)); simpl; [|left; auto].
  destruct (truthy content); simpl; [|left; auto].
  destruct (String.eqb_spec (trim content) "") as [|Hc]; [left; auto|].
  destruct mediaType as [m|]; simpl.
  - destruct (String.eqb_spec m "image") as [->|Hi]; simpl.
    + right. eexists. split; [reflexivity|]. simpl. auto 12.
    + destruct (String.eqb_spec m "video") as [->|Hv]; simpl; [|left; auto].
      right. eexists. split; [reflexivity|]. simpl. auto 12.
  - right. eexists. split; [reflexivity|]. simpl. auto 12.
Qed.

(** With the ASCII [trim] of [JsString] and an author id that is no name of
    [Object.prototype], the route is the one of [Posts]. *)
Lemma PostsJs_post_plain uuid now authorId content mediaType mediaUrl s :
  ObjectPrototype.inherits authorId = false ->
  PostsJs.post JsString.trim uuid now authorId content mediaType mediaUrl s
  = Posts.post uuid now authorId content mediaType mediaUrl s.
Proof.
  intros Ha. unfold PostsJs.post, Posts.post. now rewrite (truthy_at_plain _ _ Ha).
Qed.

(** X14.  Whatever [trim] does: a post that a user of the store has just
    created, under an id in use nowhere in the store, is returned by the
    post route with its author, its trimmed content and a counter at zero;
    it is in the feed of every user who follows the author, and its list of
    likers is empty. *)
Theorem new_post_lookup
    (trim : string -> string)
    (s : storage) (uuid : string) (now : Z) (authorId content : string)
    (mediaType : option string) (mediaUrl : string) (usr : User.t) :
  unused_id uuid s ->
  JsObj.get authorId (users s) = Some usr ->
  status (snd (PostsJs.post trim uuid now authorId content mediaType mediaUrl s))
  = 201%nat ->
  let s1 := fst (PostsJs.post trim uuid now authorId content mediaType mediaUrl s) in
  exists created,
    snd (PostsJs.post trim uuid now authorId content mediaType mediaUrl s)
    = mkResponse 201 (PostJson created)
    /\ Post.id created = uuid
    /\ Post.authorId created = authorId
    /\ Post.content created = trim content
    /\ Post.likesCount created = 0
    /\ PostsRead.get_id uuid s1 = Reply 200 (mkFeedItem created (Some usr))
    /\ (forall u items,
          In (mkFollow u authorId) (follows s) ->
          Feed.get u s1 = mkResponse 200 (FeedJson items) ->
          In created (map post items))
    /\ PostsRead.get_likes uuid s1 = mkResponse 200 (UsersJson []).
Proof.
  intros (_ & _ & _ & _ & Hlikes) Husr Hok.
  destruct (PostsJs_post_effect trim uuid now authorId content mediaType mediaUrl s)
    as [[_ Hs]|(created & He & Hid & Hau & Hco & _ & Hlc & _)]; [congruence|].
  cbv zeta. rewrite He. simpl.
  exists created. repeat split; auto.
  - unfold PostsRead.get_id. simpl. now rewrite get_set_same, Hau, Husr.
  - intros u items Hedge Hfeed.
    set (s1 := mkStorage (users s) (JsObj.set uuid created (posts s)) (follows s) (likes s))
      in *.
    assert (Hu : JsObj.has u (users s1) = true).
    { revert Hfeed. unfold Feed.get.
      destruct (JsObj.has u (users s1)); [reflexivity | discriminate]. }
    destruct (Feed_get_member s1 u Hu) as (items' & Hfeed' & Hin).
    rewrite Hfeed' in Hfeed. injection Hfeed as <-.
    apply Hin. split.
    + apply (in_map snd _ (uuid, created)). apply get_In. apply get_set_same.
    + now rewrite Hau.
  - unfold PostsRead.get_likes. simpl. rewrite get_set_same.
    rewrite filter_none; [reflexivity|].
    intros l Hl. apply String.eqb_neq. now apply Hlikes.
Qed.

Lemma new_post_lookup_witness :
  PostsRead.get_likes "00000000-0000-4000-8000-0000000000b1"
    (fst (PostsJs.post JsString.trim "00000000-0000-4000-8000-0000000000b1" 7
            SEED_IDS.alice " hello " (Some "image") "" (seed 0 storage_init)))
  = mkResponse 200 (UsersJson []).
Proof.
  assert (Hok : status (snd (PostsJs.post JsString.trim
                               "00000000-0000-4000-8000-0000000000b1" 7
                               SEED_IDS.alice " hello " (Some "image") ""
                               (seed 0 storage_init))) = 201%nat)
    by (vm_compute; reflexivity).
  assert (Hfresh : unused_id "00000000-0000-4000-8000-0000000000b1"
                             (seed 0 storage_init))
    by (apply unused_idb_ok; vm_compute; reflexivity).
  destruct (JsObj.get SEED_IDS.alice (users (seed 0 storage_init))) as [usr|] eqn:Husr;
    [|vm_compute in Husr; discriminate].
  pose proof (new_post_lookup JsString.trim _ _ _ _ _ _ _ usr Hfresh Husr Hok) as H.
  cbv zeta in H. destruct H as (created & _ & _ & _ & _ & _ & _ & _ & H).
  exact H.
Defined.

(** ** Suggestions for a user who follows nobody *)






(** ** The likers after a like and after an unlike *)








(** ** Suggestions after a follow *)




(** ** A deleted post is not listed any more *)




(** ** The follow edges and the suggestions over a plain object *)

(** X20.  Whatever the ids of the requests, also the names of
    [Object.prototype]: the follow and the unfollow routes keep the edge
    list without an edge from an id to itself and without an edge twice (at
    most one edge per ordered pair); a follow that is answered 201 is between
    two distinct ids that are not empty, each of them a user of the store or
    a name of [Object.prototype], and appends its edge and nothing else. *)
Theorem follow_routes_keep_edges_simple (s : storage) (a b : string) :
  edges_simple s ->
  edges_simple (fst (FollowsJs.post a b s))
  /\ edges_simple (fst (Follows.delete a b s))
  /\ (forall x y,
        (length (filter (Follows.same_edge x y) (follows (fst (FollowsJs.post a b s))))
         <= 1)%nat)
  /\ (status (snd (FollowsJs.post a b s)) = 201%nat ->
      a <> "" /\ b <> "" /\ a <> b
      /\ (JsObj.has a (users s) = true \/ ObjectPrototype.inherits a = true)
      /\ (JsObj.has b (users s) = true \/ ObjectPrototype.inherits b = true)
      /\ ~ In (mkFollow a b) (follows s)
      /\ fst (FollowsJs.post a b s)
         = mkStorage (users s) (posts s) (follows s ++ [mkFollow a b])%list (likes s)).
Proof.
  intros [Hirr Hnd].
  assert (Hpost : edges_simple (fst (FollowsJs.post a b s))).
  { unfold FollowsJs.post, JsArray.some.
    destruct (negb (truthy a) || negb (truthy b))%bool; [split; assumption|].
    destruct (String.eqb_spec a b) as [|Hab]; [split; assumption|].
    destruct (negb (ObjectPrototype.truthy_at a (users s))); [split; assumption|].
    destruct (negb (ObjectPrototype.truthy_at b (users s))); [split; assumption|].
    destruct (existsb _ _) eqn:He; [split; assumption|].
    split; simpl.
    - intros f Hf. apply in_app_iff in Hf as [Hf|[<-|[]]]; [now apply Hirr | exact Hab].
    - apply NoDup_snoc; [exact Hnd|]. fold (edge s a b) in He. now apply edge_false. }
  split; [exact Hpost|]. split; [|split].
  - unfold Follows.delete.
    destruct (negb (truthy a) || negb (truthy b))%bool; [split; assumption|].
    destruct (JsArray.findIndex _ _) as [i|] eqn:Hi; [|split; assumption].
    apply findIndex_splice1 in Hi as (l1 & x & l2 & Hl & _ & _ & Hs).
    split; simpl; rewrite Hs.
    + intros f Hf. apply Hirr. rewrite Hl. rewrite in_app_iff in *. simpl. tauto.
    + rewrite Hl in Hnd. now apply NoDup_remove_1 in Hnd.
  - intros x y. apply (NoDup_filter_le1 _ (mkFollow x y)); [apply Hpost|].
    intros f. apply same_edge_true.
  - unfold FollowsJs.post, JsArray.some, ObjectPrototype.truthy_at.
    destruct (truthy a) eqn:Ha; simpl; [|discriminate].
    destruct (truthy b) eqn:Hb; simpl; [|discriminate].
    destruct (String.eqb_spec a b) as [|Hab]; [discriminate|].
    destruct (JsObj.has a (users s) || ObjectPrototype.inherits a)%bool eqn:Hua;
      simpl; [|discriminate].
    destruct (JsObj.has b (users s) || ObjectPrototype.inherits b)%bool eqn:Hub;
      simpl; [|discriminate].
    destruct (existsb _ _) eqn:He; simpl; [discriminate|].
    intros _. apply truthy_true in Ha, Hb. apply orb_true_iff in Hua, Hub.
    fold (edge s a b) in He. apply edge_false in He. auto 10.
Qed.

Lemma follow_routes_keep_edges_simple_witness :
  edges_simple (fst (FollowsJs.post "constructor" "toString" (seed 0 storage_init))).
Proof.
  assert (H : edges_simple (seed 0 storage_init)).
  { split.
    - exact (follows_irrefl _ (ok_follows _ (store_ok_seed 0))).
    - exact (follows_NoDup _ (ok_follows _ (store_ok_seed 0))). }
  exact (proj1 (follow_routes_keep_edges_simple _ "constructor" "toString" H)).
Defined.

Lemma filter_key_once {V} (c : string) (L : list (string * V)) :
  NoDup (map fst L) -> In c (map fst L) ->
  length (filter (fun e => String.eqb (fst e) c) L) = 1%nat.
Proof.
  induction L as [|[k v] L IH]; simpl; intros Hnd Hin; [contradiction|].
  inversion_clear Hnd as [|? ? Hk Hnd'].
  destruct (String.eqb_spec k c) as [->|Hne]; simpl.
  - rewrite filter_none; [reflexivity|].
    intros e He. apply String.eqb_neq. intros Heq. apply Hk. rewrite <- Heq.
    now apply in_map.
  - destruct Hin as [Heq|Hin]; [contradiction|]. now apply IH.
Qed.

(** X21.  In a store where no follow edge occurs twice and every user is
    filed under its own id, whatever else the edges join: every user of the
    store other than [u] that [u] does not follow has exactly one entry in
    the suggestions of [u]; and an entry that stands for a user stands for
    such a user, never for [u] or for a user [u] follows, and carries a
    number that is not negative. *)
Theorem suggestions_of_users (s : storage) (u : string) :
  graph_ok s ->
  (forall c, JsObj.has c (users s) = true -> c <> u ->
             ~ In (mkFollow u c) (follows s) ->
             length (filter (stands_for c) (SuggestionsJs.computeSuggestions u s))
             = 1%nat)
  /\ (forall x usr,
        In x (SuggestionsJs.computeSuggestions u s) -> fst x = Some usr ->
        JsObj.get (User.id usr) (users s) = Some usr
        /\ User.id usr <> u
        /\ ~ In (mkFollow u (User.id usr)) (follows s)
        /\ exists n, snd x = Num n /\ 0 <= n).
Proof.
  intros Hg. pose proof Hg as [Hfnd Hkeys]. split.
  - intros c Hc Hne Hedge. apply edge_false in Hedge.
    assert (Hex : excluded s u c = false) by (apply excluded_false; auto).
    destruct (proj1 (has_get _ _) Hc) as [usr Husr].
    destruct (Hkeys c usr Husr) as (Hid & _ & Hplain).
    rewrite SuggestionsJs_unfold.
    set (L := JsArray.sort SuggestionsJs.compare (tally s u)).
    pose proof (sort_Permutation SuggestionsJs.compare (tally s u)) as Hperm.
    fold L in Hperm.
    assert (HndL : NoDup (map fst L)).
    { apply (Permutation_NoDup (Permutation_map fst Hperm)), tally_NoDup. }
    assert (HinL : In c (map fst L)).
    { apply (Permutation_in _ (Permutation_map fst Hperm)).
      apply has_keys. unfold JsObj.has.
      rewrite (get_tally s u c Hplain), (mutualCounts_get_edges s u c Hfnd), Hex, Hc.
      reflexivity. }
    rewrite <- (filter_key_once c L HndL HinL).
    clear HndL HinL Hperm. induction L as [|e L IH]; simpl; [reflexivity|].
    assert (Hsame : stands_for c (JsObj.get (fst e) (users s), snd e)
                    = String.eqb (fst e) c).
    { unfold stands_for. simpl.
      destruct (JsObj.get (fst e) (users s)) as [usr'|] eqn:He.
      - now rewrite (proj1 (Hkeys _ _ He)).
      - destruct (String.eqb_spec (fst e) c) as [Heq|]; [|reflexivity].
        rewrite Heq, Husr in He. discriminate. }
    rewrite Hsame. destruct (String.eqb (fst e) c); simpl; now rewrite IH.
  - intros x usr Hx Hfst.
    assert (Hid : option_map User.id (fst x) = Some (User.id usr)) by now rewrite Hfst.
    rewrite SuggestionsJs_unfold in Hx.
    apply in_map_iff in Hx as [[k v] [<- Hin]]. simpl in *.
    destruct (Hkeys k usr Hfst) as (Hk & _ & Hplain). subst k.
    apply (Permutation_in _ (Permutation_sym (sort_Permutation _ _))) in Hin.
    apply (In_get _ _ _ (tally_NoDup s u)) in Hin.
    rewrite (get_tally s u _ Hplain), (mutualCounts_get_edges s u _ Hfnd) in Hin.
    destruct (excluded s u (User.id usr)) eqn:Hex; [discriminate|].
    apply excluded_false in Hex as [Hne Hedge]. apply edge_false in Hedge.
    split; [exact Hfst|]. split; [exact Hne|]. split; [exact Hedge|].
    destruct (_ || _)%bool; [|discriminate].
    injection Hin as <-. eexists. split; [reflexivity | lia].
Qed.

Lemma suggestions_of_users_witness :
  length (filter (stands_for SEED_IDS.eve)
                 (SuggestionsJs.computeSuggestions SEED_IDS.alice
                    (fst (FollowsJs.post SEED_IDS.bob "constructor"
                                         (seed 0 storage_init)))))
  = 1%nat.
Proof.
  assert (Hg : graph_ok (fst (FollowsJs.post SEED_IDS.bob "constructor"
                                            (seed 0 storage_init)))).
  { destruct (reachable_graph_ok _ (reachable_seed 0)) as [Hnd Hk].
    split.
    - change (follows (fst (FollowsJs.post SEED_IDS.bob "constructor"
                                           (seed 0 storage_init))))
        with (follows (seed 0 storage_init)
                ++ [mkFollow SEED_IDS.bob "constructor"])%list.
      apply NoDup_snoc; [exact Hnd|].
      apply edge_false. vm_compute. reflexivity.
    - exact Hk. }
  assert (Hc : JsObj.has SEED_IDS.eve
                 (users (fst (FollowsJs.post SEED_IDS.bob "constructor"
                                             (seed 0 storage_init)))) = true)
    by (vm_compute; reflexivity).
  assert (Hne : SEED_IDS.eve <> SEED_IDS.alice) by discriminate.
  assert (He : ~ In (mkFollow SEED_IDS.alice SEED_IDS.eve)
                    (follows (fst (FollowsJs.post SEED_IDS.bob "constructor"
                                                  (seed 0 storage_init))))).
  { apply edge_false. vm_compute. reflexivity. }
  exact (proj1 (suggestions_of_users _ SEED_IDS.alice Hg) SEED_IDS.eve Hc Hne He).
Defined.
